(** * A shallow embedding of the blueshift native AMM (pinocchio program)

    Sources: [blueshift_native_amm/src/state.rs] and
    [blueshift_native_amm/src/instructions/{initialize,deposit,withdraw,swap}.rs].

    The chain is modelled as a [World]: the clock, the program-owned pool
    configurations, and the token ledger (token accounts and mints) that the
    program reaches through cross-program invocations.  Addresses are [Z]
    (a 32-byte key read little-endian), bytes are [Z] in [0, 256).
    Instruction handlers are state-and-error computations: an error keeps the
    effects issued before it, and the host ([commit]) rolls them back. *)

From Stdlib Require Import ZArith Lia Bool.
From stdpp Require Import base gmap list.

Open Scope Z_scope.

(* ------------------------------------------------------------------ *)
(** ** Bytes and integers *)

Definition u64_max : Z := 2 ^ 64 - 1.

Fixpoint le_bytes_to_Z (bs : list Z) : Z :=
  match bs with
  | [] => 0
  | b :: r => b mod 256 + 256 * le_bytes_to_Z r
  end.

Fixpoint Z_to_le_bytes (n : nat) (v : Z) : list Z :=
  match n with
  | O => []
  | S n' => (v mod 256) :: Z_to_le_bytes n' (v / 256)
  end.

(** [i64::from_le_bytes]: two's complement reading of 8 bytes. *)
Definition i64_of_le (bs : list Z) : Z :=
  let v := le_bytes_to_Z bs in
  if v <? 2 ^ 63 then v else v - 2 ^ 64.

Definition slice (off len : nat) (bs : list Z) : list Z :=
  firstn len (skipn off bs).

Definition byte_at (off : nat) (bs : list Z) : Z := nth off bs 0 mod 256.

Definition Address := Z.

(** [Address::from([u8; 32])]. *)
Definition address_of_bytes (bs : list Z) : Address := le_bytes_to_Z bs.
Definition address_bytes (a : Address) : list Z := Z_to_le_bytes 32 a.

(** A value that fits a byte. *)
Definition is_byte (b : Z) : Prop := 0 <= b < 256.

(* ------------------------------------------------------------------ *)
(** ** Errors and the result type *)

Inductive ProgramError :=
  | Custom (code : Z)
  | InvalidArgument
  | InvalidInstructionData
  | InvalidAccountData
  | InvalidAccountOwner
  | NotEnoughAccountKeys
  | MissingRequiredSignature.

Inductive result (A : Type) :=
  | Ok (a : A)
  | Err (e : ProgramError).
Arguments Ok {A} a.
Arguments Err {A} e.

(** Token program error codes surfaced through CPI ([TokenError as u32]). *)
Definition TokenInsufficientFunds := Custom 1.
Definition TokenMintMismatch := Custom 3.
Definition TokenOwnerMismatch := Custom 4.
Definition TokenOverflow := Custom 14.
(** System program [SystemError::AccountAlreadyInUse]. *)
Definition SystemAccountAlreadyInUse := Custom 0.

(* ------------------------------------------------------------------ *)
(** ** On-chain data *)

(** [state.rs: Config] with its fields decoded (seed as u64, fee as u16). *)
Record Config := mkConfig {
  state : Z;
  seed : Z;
  authority : list Z;
  mint_x : Address;
  mint_y : Address;
  fee : Z;
  config_bump : Z
}.

(** [state.rs: AmmState]. *)
Definition AmmState_Uninitialized : Z := 0.
Definition AmmState_Initialized : Z := 1.
Definition AmmState_Disabled : Z := 2.
Definition AmmState_WithdrawOnly : Z := 3.

(** A token-ledger account ([pinocchio_token::state::TokenAccount]). *)
Record TokenAccount := mkTokenAccount {
  ta_mint : Address;
  ta_owner : Address;
  ta_amount : Z
}.

(** A token-ledger mint ([pinocchio_token::state::Mint]). *)
Record Mint := mkMint {
  supply : Z;
  mint_authority : option Address;
  decimals : Z
}.

Record World := mkWorld {
  clock : Z;
  configs : gmap Address Config;
  tokens : gmap Address TokenAccount;
  mints : gmap Address Mint
}.

Definition set_tokens (w : World) (t : gmap Address TokenAccount) : World :=
  mkWorld (clock w) (configs w) t (mints w).
Definition set_mints (w : World) (m : gmap Address Mint) : World :=
  mkWorld (clock w) (configs w) (tokens w) m.
Definition set_configs (w : World) (c : gmap Address Config) : World :=
  mkWorld (clock w) c (tokens w) (mints w).

(* ------------------------------------------------------------------ *)
(** ** The state-and-error monad of an instruction *)

Definition M (A : Type) := World -> World * result A.

Definition ret {A} (a : A) : M A := fun w => (w, Ok a).
Definition fail {A} (e : ProgramError) : M A := fun w => (w, Err e).
Definition bind {A B} (m : M A) (k : A -> M B) : M B :=
  fun w => match m w with
           | (w', Ok a) => k a w'
           | (w', Err e) => (w', Err e)
           end.
Definition get : M World := fun w => (w, Ok w).
Definition put (w' : World) : M unit := fun _ => (w', Ok tt).

Notation "'let*' x := m 'in' k" := (bind m (fun x => k))
  (at level 200, x name, m at level 100, k at level 200).
Notation "'do!' m 'in' k" := (bind m (fun _ => k))
  (at level 200, m at level 100, k at level 200).

Definition guard (b : bool) (e : ProgramError) : M unit :=
  if b then ret tt else fail e.

Definition lift_option {A} (o : option A) (e : ProgramError) : M A :=
  match o with Some a => ret a | None => fail e end.

(** The host runs an instruction atomically: on error nothing persists. *)
Definition commit (m : M unit) (w : World) : World * result unit :=
  match m w with
  | (w', Ok tt) => (w', Ok tt)
  | (_, Err e) => (w, Err e)
  end.

(* ------------------------------------------------------------------ *)
(** ** The token ledger (the token program reached by CPI)

    Transfer, MintTo and Burn follow the token program's processor:
    an account that does not unpack fails, then the balance, mint and owner
    checks in the processor's order; a self-transfer succeeds without
    moving anything.  Freezing and delegates are not modelled. *)

Definition is_signer (a : Address) (signers : list Address) : bool :=
  existsb (Z.eqb a) signers.

Definition token_transfer (from to auth : Address) (amount : Z)
    (signers : list Address) : M unit :=
  fun w =>
    match tokens w !! from, tokens w !! to with
    | Some src, Some dst =>
        if ta_amount src <? amount then (w, Err TokenInsufficientFunds)
        else if negb (ta_mint src =? ta_mint dst) then (w, Err TokenMintMismatch)
        else if negb (ta_owner src =? auth) then (w, Err TokenOwnerMismatch)
        else if negb (is_signer auth signers) then (w, Err MissingRequiredSignature)
        else if from =? to then (w, Ok tt)
        else
          let src' := mkTokenAccount (ta_mint src) (ta_owner src) (ta_amount src - amount) in
          if ta_amount dst + amount >? u64_max then (w, Err TokenOverflow)
          else
            let t1 := <[from := src']> (tokens w) in
            let dst' := mkTokenAccount (ta_mint dst) (ta_owner dst) (ta_amount dst + amount) in
            (set_tokens w (<[to := dst']> t1), Ok tt)
    | _, _ => (w, Err InvalidAccountData)
    end.

Definition token_mint_to (mint account auth : Address) (amount : Z)
    (signers : list Address) : M unit :=
  fun w =>
    match mints w !! mint, tokens w !! account with
    | Some m, Some dst =>
        if negb (ta_mint dst =? mint) then (w, Err TokenMintMismatch)
        else match mint_authority m with
          | None => (w, Err (Custom 5))
          | Some ma =>
              if negb (ma =? auth) then (w, Err TokenOwnerMismatch)
              else if negb (is_signer auth signers) then (w, Err MissingRequiredSignature)
              else if ta_amount dst + amount >? u64_max then (w, Err TokenOverflow)
              else if supply m + amount >? u64_max then (w, Err TokenOverflow)
              else
                let dst' := mkTokenAccount (ta_mint dst) (ta_owner dst) (ta_amount dst + amount) in
                let m' := mkMint (supply m + amount) (mint_authority m) (decimals m) in
                (mkWorld (clock w) (configs w) (<[account := dst']> (tokens w))
                   (<[mint := m']> (mints w)), Ok tt)
          end
    | _, _ => (w, Err InvalidAccountData)
    end.

Definition token_burn (mint account auth : Address) (amount : Z)
    (signers : list Address) : M unit :=
  fun w =>
    match tokens w !! account, mints w !! mint with
    | Some src, Some m =>
        if ta_amount src <? amount then (w, Err TokenInsufficientFunds)
        else if negb (ta_mint src =? mint) then (w, Err TokenMintMismatch)
        else if negb (ta_owner src =? auth) then (w, Err TokenOwnerMismatch)
        else if negb (is_signer auth signers) then (w, Err MissingRequiredSignature)
        else if supply m <? amount then (w, Err TokenOverflow)
        else
          let src' := mkTokenAccount (ta_mint src) (ta_owner src) (ta_amount src - amount) in
          let m' := mkMint (supply m - amount) (mint_authority m) (decimals m) in
          (mkWorld (clock w) (configs w) (<[account := src']> (tokens w))
             (<[mint := m']> (mints w)), Ok tt)
    | _, _ => (w, Err InvalidAccountData)
    end.

(** Balance of a token account, [0] when absent. *)
Definition balance (w : World) (a : Address) : Z :=
  match tokens w !! a with Some t => ta_amount t | None => 0 end.

(* ------------------------------------------------------------------ *)
(** ** [state.rs]: loading and writing a Config *)

(** [Config::load]: data length and owner check; the map holds exactly
    the accounts of [Config::LEN] bytes owned by this program. *)
Definition config_load (a : Address) : M Config :=
  fun w => match configs w !! a with
           | Some c => (w, Ok c)
           | None => (w, Err InvalidAccountData)
           end.

(** [Mint::from_account_view_unchecked] / [TokenAccount::from_account_view_unchecked]. *)
Definition mint_load (a : Address) : M Mint :=
  fun w => match mints w !! a with
           | Some m => (w, Ok m)
           | None => (w, Err InvalidAccountData)
           end.

Definition token_account_load (a : Address) : M TokenAccount :=
  fun w => match tokens w !! a with
           | Some t => (w, Ok t)
           | None => (w, Err InvalidAccountData)
           end.

(** The setters of [Config] act on the record in place: a failing setter
    leaves the earlier writes of [set_inner] behind. *)
Definition set_state (c : Config) (s : Z) : Config * result unit :=
  if s >? AmmState_WithdrawOnly then (c, Err InvalidAccountData)
  else (mkConfig s (seed c) (authority c) (mint_x c) (mint_y c) (fee c) (config_bump c), Ok tt).

Definition set_fee (c : Config) (f : Z) : Config * result unit :=
  if f >=? 10000 then (c, Err InvalidAccountData)
  else (mkConfig (state c) (seed c) (authority c) (mint_x c) (mint_y c) f (config_bump c), Ok tt).

Definition set_seed (c : Config) (sd : Z) : Config :=
  mkConfig (state c) sd (authority c) (mint_x c) (mint_y c) (fee c) (config_bump c).
Definition set_authority (c : Config) (auth : list Z) : Config :=
  mkConfig (state c) (seed c) auth (mint_x c) (mint_y c) (fee c) (config_bump c).
Definition set_mint_x (c : Config) (mx : Address) : Config :=
  mkConfig (state c) (seed c) (authority c) mx (mint_y c) (fee c) (config_bump c).
Definition set_mint_y (c : Config) (my : Address) : Config :=
  mkConfig (state c) (seed c) (authority c) (mint_x c) my (fee c) (config_bump c).
Definition set_config_bump (c : Config) (bump : Z) : Config :=
  mkConfig (state c) (seed c) (authority c) (mint_x c) (mint_y c) (fee c) bump.

Definition set_inner (c : Config) (sd : Z) (auth : list Z) (mx my : Address)
    (f : Z) (bump : Z) : Config * result unit :=
  match set_state c AmmState_Initialized with
  | (c1, Err e) => (c1, Err e)
  | (c1, Ok _) =>
      let c5 := set_mint_y (set_mint_x (set_authority (set_seed c1 sd) auth) mx) my in
      match set_fee c5 f with
      | (c6, Err e) => (c6, Err e)
      | (c6, Ok _) => (set_config_bump c6 bump, Ok tt)
      end
  end.

(** A freshly created account of [Config::LEN] bytes: all zero. *)
Definition zero_config : Config := mkConfig 0 0 (repeat 0 32) 0 0 0 0.

(** [Config::has_authority]: the authority read as four native-endian
    (little-endian) u64 words; [Some] when one of them is nonzero. *)
Definition has_authority (c : Config) : option (list Z) :=
  let chunks := map (fun i => le_bytes_to_Z (slice (8 * i) 8 (authority c))) [0; 1; 2; 3]%nat in
  if existsb (fun x => negb (x =? 0)) chunks then Some (authority c) else None.

(* ------------------------------------------------------------------ *)
(** ** The curve library

    [constant_product_curve] is an external crate: its source is not part
    of the repository.  Its three entry points used by the handlers are
    modelled from the spec (sections 4.3 to 4.5 and 7). *)

Definition ceil_div (a b : Z) : Z := (a + b - 1) / b.

(** Modelled from the spec: [ConstantProduct::xy_deposit_amounts_from_l]
    (missing crate [constant_product_curve]): the proportional share
    [x * a / l], [y * a / l] of the reserves for [a] new shares over a
    supply [l], rounded up; a zero supply or a result beyond u64 is a math
    error.  The precision argument does not change the result. *)
Definition xy_deposit_amounts_from_l (x y l a precision : Z) : option (Z * Z) :=
  if l =? 0 then None
  else
    let dx := ceil_div (x * a) l in
    let dy := ceil_div (y * a) l in
    if (dx >? u64_max) || (dy >? u64_max) then None else Some (dx, dy).

(** Modelled from the spec: [ConstantProduct::xy_withdraw_amounts_from_l]
    (missing crate [constant_product_curve]): the proportional share
    rounded down. *)
Definition xy_withdraw_amounts_from_l (x y l a precision : Z) : option (Z * Z) :=
  if l =? 0 then None
  else
    let dx := x * a / l in
    let dy := y * a / l in
    if (dx >? u64_max) || (dy >? u64_max) then None else Some (dx, dy).

Inductive LiquidityPair := PairX | PairY.

Record ConstantProduct := mkConstantProduct {
  cp_x : Z; cp_y : Z; cp_l : Z; cp_fee : Z
}.

Record SwapResult := mkSwapResult {
  deposit : Z;
  withdraw : Z
}.

(** Modelled from the spec: [ConstantProduct::init] (missing crate
    [constant_product_curve]); a fee out of range is an economic error. *)
Definition cp_init (x y l f : Z) : option ConstantProduct :=
  if f >=? 10000 then None else Some (mkConstantProduct x y l f).

(** The input left after the fee: [amount * (10000 - fee) / 10000]. *)
Definition effective_input (f a : Z) : Z := a * (10000 - f) / 10000.

(** Modelled from the spec: the unchecked swap of [constant_product_curve]:
    the whole input [a] is deposited, the output [o] is the largest amount
    with [(r_in + effective_input) * (r_out - o) >= r_in * r_out]. *)
Definition cp_swap_unsafe (c : ConstantProduct) (p : LiquidityPair) (a : Z)
    : option SwapResult :=
  let '(r_in, r_out) := match p with
                        | PairX => (cp_x c, cp_y c)
                        | PairY => (cp_y c, cp_x c)
                        end in
  let e := effective_input (cp_fee c) a in
  if r_in + e =? 0 then None
  else Some (mkSwapResult a (r_out - ceil_div (r_in * r_out) (r_in + e))).

(** Modelled from the spec: [ConstantProduct::swap] (missing crate
    [constant_product_curve]): the unchecked swap, rejected when its
    output is below [min] (slippage guard). *)
Definition cp_swap (c : ConstantProduct) (p : LiquidityPair) (a min : Z)
    : option SwapResult :=
  match cp_swap_unsafe c p a with
  | Some r => if withdraw r <? min then None else Some r
  | None => None
  end.

(* ------------------------------------------------------------------ *)
(** ** Instruction data and account lists *)

(** [initialize.rs: InitializeInstructionData] (packed). *)
Record InitializeInstructionData := mkInitializeInstructionData {
  init_seed : Z;
  init_fee : Z;
  init_mint_x : list Z;
  init_mint_y : list Z;
  init_config_bump : Z;
  init_lp_bump : Z;
  init_authority : list Z
}.

Definition INITIALIZE_DATA_LEN_WITH_AUTHORITY : nat := 8 + 2 + 32 + 32 + 1 + 1 + 32.
Definition INITIALIZE_DATA_LEN : nat := INITIALIZE_DATA_LEN_WITH_AUTHORITY - 32.

(** [read_unaligned] of a 108-byte buffer as the packed struct. *)
Definition read_initialize_data (raw : list Z) : InitializeInstructionData :=
  mkInitializeInstructionData
    (le_bytes_to_Z (slice 0 8 raw))
    (le_bytes_to_Z (slice 8 2 raw))
    (slice 10 32 raw)
    (slice 42 32 raw)
    (byte_at 74 raw)
    (byte_at 75 raw)
    (slice 76 32 raw).

(** [InitializeInstructionData::try_from]. *)
Definition initialize_data_try_from (data : list Z) : result InitializeInstructionData :=
  if Nat.eqb (length data) INITIALIZE_DATA_LEN_WITH_AUTHORITY then
    Ok (read_initialize_data data)
  else if Nat.eqb (length data) INITIALIZE_DATA_LEN then
    Ok (read_initialize_data (data ++ repeat 0 32))
  else Err InvalidInstructionData.

Record InitializeAccounts := mkInitializeAccounts {
  ia_initializer : Address;
  ia_mint_lp : Address;
  ia_config : Address
}.

Definition initialize_accounts_try_from (accs : list Address) : result InitializeAccounts :=
  match accs with
  | [initializer; mint_lp; config; _; _] => Ok (mkInitializeAccounts initializer mint_lp config)
  | _ => Err NotEnoughAccountKeys
  end.

(** [deposit.rs: DepositInstructionData]: amount, max_x, max_y, expiration. *)
Record DepositInstructionData := mkDepositInstructionData {
  dep_amount : Z; dep_max_x : Z; dep_max_y : Z; dep_expiration : Z
}.

Definition deposit_data_try_from (data : list Z) : result DepositInstructionData :=
  if negb (Nat.eqb (length data) 32) then Err InvalidInstructionData
  else Ok (mkDepositInstructionData
             (le_bytes_to_Z (slice 0 8 data)) (le_bytes_to_Z (slice 8 8 data))
             (le_bytes_to_Z (slice 16 8 data)) (i64_of_le (slice 24 8 data))).

(** [withdraw.rs: WithdrawInstructionData]: amount, min_x, min_y, expiration. *)
Record WithdrawInstructionData := mkWithdrawInstructionData {
  wd_amount : Z; wd_min_x : Z; wd_min_y : Z; wd_expiration : Z
}.

Definition withdraw_data_try_from (data : list Z) : result WithdrawInstructionData :=
  if negb (Nat.eqb (length data) 32) then Err InvalidInstructionData
  else Ok (mkWithdrawInstructionData
             (le_bytes_to_Z (slice 0 8 data)) (le_bytes_to_Z (slice 8 8 data))
             (le_bytes_to_Z (slice 16 8 data)) (i64_of_le (slice 24 8 data))).

(** [swap.rs: SwapInstructionData]: is_x (one byte), amount, min, expiration. *)
Record SwapInstructionData := mkSwapInstructionData {
  sw_is_x : Z; sw_amount : Z; sw_min : Z; sw_expiration : Z
}.

Definition swap_data_try_from (data : list Z) : result SwapInstructionData :=
  if negb (Nat.eqb (length data) 25) then Err InvalidInstructionData
  else Ok (mkSwapInstructionData
             (byte_at 0 data) (le_bytes_to_Z (slice 1 8 data))
             (le_bytes_to_Z (slice 9 8 data)) (i64_of_le (slice 17 8 data))).

(** [SwapInstructionData::is_x]. *)
Definition is_x (d : SwapInstructionData) : bool := negb (sw_is_x d =? 0).

(** Deposit and Withdraw take the same nine accounts. *)
Record PoolAccounts := mkPoolAccounts {
  pa_user : Address; pa_mint_lp : Address; pa_vault_x : Address; pa_vault_y : Address;
  pa_user_x_ata : Address; pa_user_y_ata : Address; pa_user_lp_ata : Address;
  pa_config : Address; pa_token_program : Address
}.

(** [DepositAccounts::try_from] and [WithdrawAccounts::try_from]. *)
Definition pool_accounts_try_from (accs : list Address) : result PoolAccounts :=
  match accs with
  | [user; mint_lp; vault_x; vault_y; user_x_ata; user_y_ata; user_lp_ata; config; token_program] =>
      Ok (mkPoolAccounts user mint_lp vault_x vault_y user_x_ata user_y_ata user_lp_ata
            config token_program)
  | _ => Err NotEnoughAccountKeys
  end.

Record SwapAccounts := mkSwapAccounts {
  sa_user : Address; sa_user_x_ata : Address; sa_user_y_ata : Address;
  sa_vault_x : Address; sa_vault_y : Address; sa_config : Address; sa_token_program : Address
}.

Definition swap_accounts_try_from (accs : list Address) : result SwapAccounts :=
  match accs with
  | [user; user_x_ata; user_y_ata; vault_x; vault_y; config; token_program] =>
      Ok (mkSwapAccounts user user_x_ata user_y_ata vault_x vault_y config token_program)
  | _ => Err NotEnoughAccountKeys
  end.

(** [Deposit::try_from]: accounts, payload, then the positivity checks. *)
Definition deposit_try_from (data : list Z) (accs : list Address)
    : result (PoolAccounts * DepositInstructionData) :=
  match pool_accounts_try_from accs with
  | Err e => Err e
  | Ok a =>
      match deposit_data_try_from data with
      | Err e => Err e
      | Ok d =>
          if (dep_amount d =? 0) || (dep_max_x d =? 0) || (dep_max_y d =? 0)
          then Err InvalidInstructionData else Ok (a, d)
      end
  end.

(** [Withdraw::try_from]: only the amount must be positive. *)
Definition withdraw_try_from (data : list Z) (accs : list Address)
    : result (PoolAccounts * WithdrawInstructionData) :=
  match pool_accounts_try_from accs with
  | Err e => Err e
  | Ok a =>
      match withdraw_data_try_from data with
      | Err e => Err e
      | Ok d => if wd_amount d =? 0 then Err InvalidInstructionData else Ok (a, d)
      end
  end.

(** [Swap::try_from]. *)
Definition swap_try_from (data : list Z) (accs : list Address)
    : result (SwapAccounts * SwapInstructionData) :=
  match swap_accounts_try_from accs with
  | Err e => Err e
  | Ok a =>
      match swap_data_try_from data with
      | Err e => Err e
      | Ok d =>
          if (sw_amount d =? 0) || (sw_min d =? 0)
          then Err InvalidInstructionData else Ok (a, d)
      end
  end.

(** [Initialize::try_from]. *)
Definition initialize_try_from (data : list Z) (accs : list Address)
    : result (InitializeAccounts * InitializeInstructionData) :=
  match initialize_accounts_try_from accs with
  | Err e => Err e
  | Ok a =>
      match initialize_data_try_from data with
      | Err e => Err e
      | Ok d => Ok (a, d)
      end
  end.

(** Seed strings. *)
Definition CONFIG_TAG : list Z := [99; 111; 110; 102; 105; 103].      (* "config" *)
Definition MINT_LP_TAG : list Z := [109; 105; 110; 116; 95; 108; 112]. (* "mint_lp" *)

(** The signer seeds of the pool address, rebuilt from a Config. *)
Definition config_seeds (c : Config) : list (list Z) :=
  [CONFIG_TAG; Z_to_le_bytes 8 (seed c); address_bytes (mint_x c);
   address_bytes (mint_y c); [config_bump c]].

(** The configuration [set_inner] writes from an Initialize payload. *)
Definition initialized_config (d : InitializeInstructionData) : Config :=
  mkConfig AmmState_Initialized (init_seed d) (init_authority d)
    (address_of_bytes (init_mint_x d)) (address_of_bytes (init_mint_y d))
    (init_fee d) (init_config_bump d).

Definition address_in_use (w : World) (a : Address) : bool :=
  bool_decide (is_Some (configs w !! a)) || bool_decide (is_Some (tokens w !! a))
  || bool_decide (is_Some (mints w !! a)).

(** Step 6 of [Deposit::process]: the first deposit takes [max_x, max_y]
    as they are; later ones ask the curve (its error becomes
    [InvalidArgument]). *)
Definition deposit_amounts (mint_lp : Mint) (vx vy : TokenAccount)
    (d : DepositInstructionData) : option (Z * Z) :=
  if (supply mint_lp =? 0) && (ta_amount vx =? 0) && (ta_amount vy =? 0)
  then Some (dep_max_x d, dep_max_y d)
  else xy_deposit_amounts_from_l (ta_amount vx) (ta_amount vy) (supply mint_lp) (dep_amount d) 6.

(** Step 6 of [Withdraw::process]: burning the whole supply takes both
    reserves whole; otherwise the curve's proportional amounts. *)
Definition withdraw_amounts (mint_lp : Mint) (vx vy : TokenAccount)
    (d : WithdrawInstructionData) : option (Z * Z) :=
  if supply mint_lp =? wd_amount d
  then Some (ta_amount vx, ta_amount vy)
  else xy_withdraw_amounts_from_l (ta_amount vx) (ta_amount vy) (supply mint_lp) (wd_amount d) 6.

(* ------------------------------------------------------------------ *)
(** ** The instruction handlers *)

Section Handlers.

(** Program-derived addresses of this program, from a seed list. *)
Variable derive_pda : list (list Z) -> Address.
(** The associated-token-account address of (wallet, token program, mint). *)
Variable find_ata : Address -> Address -> Address -> Address.

(** [create_account_with_minimum_balance_signed]: the system program
    refuses an address in use; payer and new account must sign, the new
    account through the PDA seeds given. *)
Definition create_account (new payer : Address) (pda_seeds : list (list Z))
    (signers : list Address) : M unit :=
  fun w =>
    if address_in_use w new then (w, Err SystemAccountAlreadyInUse)
    else if negb (is_signer payer signers) then (w, Err MissingRequiredSignature)
    else if negb (is_signer new (derive_pda pda_seeds :: signers))
    then (w, Err MissingRequiredSignature)
    else (w, Ok tt).

(** Writing a freshly created [Config::LEN]-byte account of this program. *)
Definition create_config_account (a : Address) : M unit :=
  fun w => (set_configs w (<[a := zero_config]> (configs w)), Ok tt).

(** [Config::load_mut_unchecked] then [set_inner], writing back what the
    setters wrote, also when one of them fails. *)
Definition config_set_inner (a : Address) (d : InitializeInstructionData) : M unit :=
  fun w =>
    match configs w !! a with
    | None => (w, Err InvalidAccountData)
    | Some c =>
        let '(c', r) := set_inner c (init_seed d) (init_authority d)
                          (address_of_bytes (init_mint_x d)) (address_of_bytes (init_mint_y d))
                          (init_fee d) (init_config_bump d) in
        (set_configs w (<[a := c']> (configs w)), r)
    end.

(** [InitializeMint2] on the freshly created mint account. *)
Definition initialize_mint2 (mint : Address) (dec : Z) (auth : Address) : M unit :=
  fun w =>
    if bool_decide (is_Some (mints w !! mint)) then (w, Err (Custom 6))
    else (set_mints w (<[mint := mkMint 0 (Some auth) dec]> (mints w)), Ok tt).

(** [Initialize::process]. *)
Definition initialize_process (acc : InitializeAccounts) (d : InitializeInstructionData)
    (signers : list Address) : M unit :=
  let cfg_seeds := [CONFIG_TAG; Z_to_le_bytes 8 (init_seed d); init_mint_x d;
                    init_mint_y d; [init_config_bump d]] in
  do! create_account (ia_config acc) (ia_initializer acc) cfg_seeds signers in
  do! create_config_account (ia_config acc) in
  do! config_set_inner (ia_config acc) d in
  let lp_seeds := [MINT_LP_TAG; address_bytes (ia_config acc); [init_lp_bump d]] in
  do! create_account (ia_mint_lp acc) (ia_initializer acc) lp_seeds signers in
  initialize_mint2 (ia_mint_lp acc) 6 (ia_config acc).

(** The vault checks of the handlers (compiled for the chain). *)
Definition check_vaults (cfg_addr tp vx vy : Address) (c : Config) : M unit :=
  do! guard (find_ata cfg_addr tp (mint_x c) =? vx) InvalidAccountData in
  guard (find_ata cfg_addr tp (mint_y c) =? vy) InvalidAccountData.

(** [Deposit::process]. *)
Definition deposit_process (a : PoolAccounts) (d : DepositInstructionData)
    (signers : list Address) : M unit :=
  let* w := get in
  do! guard (negb (clock w >=? dep_expiration d)) (Custom 1) in
  let* c := config_load (pa_config a) in
  do! guard (state c =? AmmState_Initialized) InvalidAccountData in
  do! check_vaults (pa_config a) (pa_token_program a) (pa_vault_x a) (pa_vault_y a) c in
  let* mint_lp := mint_load (pa_mint_lp a) in
  let* vx := token_account_load (pa_vault_x a) in
  let* vy := token_account_load (pa_vault_y a) in
  let* xy := lift_option (deposit_amounts mint_lp vx vy d) InvalidArgument in
  match xy with
  | (x, y) =>
      do! guard ((x <=? dep_max_x d) && (y <=? dep_max_y d)) InvalidArgument in
      do! token_transfer (pa_user_x_ata a) (pa_vault_x a) (pa_user a) x signers in
      do! token_transfer (pa_user_y_ata a) (pa_vault_y a) (pa_user a) y signers in
      token_mint_to (pa_mint_lp a) (pa_user_lp_ata a) (pa_config a) (dep_amount d)
        (derive_pda (config_seeds c) :: signers)
  end.

(** [Withdraw::process]. *)
Definition withdraw_process (a : PoolAccounts) (d : WithdrawInstructionData)
    (signers : list Address) : M unit :=
  let* w := get in
  do! guard (negb (clock w >=? wd_expiration d)) (Custom 1) in
  let* c := config_load (pa_config a) in
  do! guard (negb (state c =? AmmState_Disabled)) InvalidAccountData in
  do! check_vaults (pa_config a) (pa_token_program a) (pa_vault_x a) (pa_vault_y a) c in
  let* mint_lp := mint_load (pa_mint_lp a) in
  let* vx := token_account_load (pa_vault_x a) in
  let* vy := token_account_load (pa_vault_y a) in
  let* xy := lift_option (withdraw_amounts mint_lp vx vy d) InvalidArgument in
  match xy with
  | (x, y) =>
      do! guard ((x >=? wd_min_x d) && (y >=? wd_min_y d)) InvalidArgument in
      let pda := derive_pda (config_seeds c) in
      do! token_transfer (pa_vault_x a) (pa_user_x_ata a) (pa_config a) x (pda :: signers) in
      do! token_transfer (pa_vault_y a) (pa_user_y_ata a) (pa_config a) y (pda :: signers) in
      token_burn (pa_mint_lp a) (pa_user_lp_ata a) (pa_user a) (wd_amount d) signers
  end.

(** [Swap::process]. *)
Definition swap_process (a : SwapAccounts) (d : SwapInstructionData)
    (signers : list Address) : M unit :=
  let* w := get in
  do! guard (negb (clock w >=? sw_expiration d)) (Custom 1) in
  let* c := config_load (sa_config a) in
  do! guard (state c =? AmmState_Initialized) InvalidAccountData in
  do! check_vaults (sa_config a) (sa_token_program a) (sa_vault_x a) (sa_vault_y a) c in
  let* vx := token_account_load (sa_vault_x a) in
  let* vy := token_account_load (sa_vault_y a) in
  let* curve := lift_option (cp_init (ta_amount vx) (ta_amount vy) (ta_amount vx) (fee c))
                   (Custom 1) in
  let pair := if is_x d then PairX else PairY in
  let* res := lift_option (cp_swap curve pair (sw_amount d) (sw_min d)) (Custom 1) in
  do! guard (negb ((deposit res =? 0) || (withdraw res =? 0))) InvalidArgument in
  let pda := derive_pda (config_seeds c) in
  if is_x d then
    do! token_transfer (sa_user_x_ata a) (sa_vault_x a) (sa_user a) (deposit res) signers in
    token_transfer (sa_vault_y a) (sa_user_y_ata a) (sa_config a) (withdraw res) (pda :: signers)
  else
    do! token_transfer (sa_user_y_ata a) (sa_vault_y a) (sa_user a) (deposit res) signers in
    token_transfer (sa_vault_x a) (sa_user_x_ata a) (sa_config a) (withdraw res) (pda :: signers).

(** A whole instruction: decode ([try_from]) then [process]. *)
Definition deposit_ix (data : list Z) (accs signers : list Address) : M unit :=
  match deposit_try_from data accs with
  | Ok (a, d) => deposit_process a d signers
  | Err e => fail e
  end.

Definition withdraw_ix (data : list Z) (accs signers : list Address) : M unit :=
  match withdraw_try_from data accs with
  | Ok (a, d) => withdraw_process a d signers
  | Err e => fail e
  end.

Definition swap_ix (data : list Z) (accs signers : list Address) : M unit :=
  match swap_try_from data accs with
  | Ok (a, d) => swap_process a d signers
  | Err e => fail e
  end.

Definition initialize_ix (data : list Z) (accs signers : list Address) : M unit :=
  match initialize_try_from data accs with
  | Ok (a, d) => initialize_process a d signers
  | Err e => fail e
  end.

End Handlers.

(* ------------------------------------------------------------------ *)
(** ** The program as a transition system *)

(** One instruction of the program, as the dispatcher hands it over:
    payload, account list, transaction signers. *)
Inductive Instr :=
  | IInitialize (data : list Z) (accs signers : list Address)
  | IDeposit (data : list Z) (accs signers : list Address)
  | IWithdraw (data : list Z) (accs signers : list Address)
  | ISwap (data : list Z) (accs signers : list Address).

Definition exec_ix (derive_pda : list (list Z) -> Address)
    (find_ata : Address -> Address -> Address -> Address) (i : Instr) : M unit :=
  match i with
  | IInitialize data accs s => initialize_ix derive_pda data accs s
  | IDeposit data accs s => deposit_ix derive_pda find_ata data accs s
  | IWithdraw data accs s => withdraw_ix derive_pda find_ata data accs s
  | ISwap data accs s => swap_ix derive_pda find_ata data accs s
  end.

(** The world after the host ran one instruction atomically. *)
Definition step (derive_pda : list (list Z) -> Address)
    (find_ata : Address -> Address -> Address -> Address) (i : Instr) (w : World) : World :=
  fst (commit (exec_ix derive_pda find_ata i) w).

(** Every stored pool fee is in [0, 10000). *)
Definition fees_valid (w : World) : Prop :=
  map_Forall (fun _ c => 0 <= fee c < 10000) (configs w).

(** The fields of a token account that no instruction of the ledger
    used here changes. *)
Definition token_shape (t : TokenAccount) : Address * Address := (ta_mint t, ta_owner t).

(** A computation that only reads the world. *)
Definition reads {A} (m : M A) : Prop := forall w, fst (m w) = w.

(** A computation that fails at [w] and leaves [w] as it was. *)
Definition fails_clean {A} (m : M A) (w : World) : Prop := exists e, m w = (w, Err e).

(** The product of the reserves of the pool at [cfg] (token program
    [tp]): the balances of its two associated token accounts. *)
Definition reserve_product (find_ata : Address -> Address -> Address -> Address)
    (cfg tp : Address) (w : World) : Z :=
  match configs w !! cfg with
  | Some c => balance w (find_ata cfg tp (mint_x c)) * balance w (find_ata cfg tp (mint_y c))
  | None => 0
  end.

(** A pool as the chain keeps it: its configuration exists with a fee
    that is not negative, its reserve accounts (where they exist) hold its
    two mints and are owned by the pool address, and no balance is
    negative. *)
Definition pool_wf (find_ata : Address -> Address -> Address -> Address)
    (cfg tp : Address) (w : World) : Prop :=
  exists c, configs w !! cfg = Some c /\ 0 <= fee c
    /\ (forall s, token_shape <$> tokens w !! find_ata cfg tp (mint_x c) = Some s -> s = (mint_x c, cfg))
    /\ (forall s, token_shape <$> tokens w !! find_ata cfg tp (mint_y c) = Some s -> s = (mint_y c, cfg))
    /\ (forall z, 0 <= balance w z).

(** A Swap call (payload, accounts, signers) on the pool at [cfg]: the
    pool address is not among the signers (a program address cannot
    sign a transaction). *)
Definition targets_pool (cfg tp : Address) (call : list Z * list Address * list Address) : Prop :=
  match call with
  | (data, accs, signers) => nth 5 accs 0 = cfg /\ nth 6 accs 0 = tp /\ is_signer cfg signers = false
  end.

(** Swap calls run one after another, each atomically: the worlds seen,
    the first one first, or [None] when a call fails. *)
Fixpoint swap_trace (derive_pda : list (list Z) -> Address)
    (find_ata : Address -> Address -> Address -> Address)
    (calls : list (list Z * list Address * list Address)) (w : World) : option (list World) :=
  match calls with
  | [] => Some [w]
  | (data, accs, signers) :: rest =>
      match commit (swap_ix derive_pda find_ata data accs signers) w with
      | (w', Ok _) => option_map (cons w) (swap_trace derive_pda find_ata rest w')
      | (_, Err _) => None
      end
  end.

(* ------------------------------------------------------------------ *)
(** ** A concrete pool, for the examples

    Addresses: user 1, LP mint 2, user token accounts 5 (X), 6 (Y), 7 (LP),
    pool configuration 8, token program 9, mints X = 10 and Y = 11; the
    vaults are the associated accounts 1008 and 1108.  The address
    derivations are stand-ins that send the pool seeds to 8 and any other
    seed list to 2. *)

Definition demo_pda (seeds : list (list Z)) : Address :=
  if bool_decide (hd [] seeds = CONFIG_TAG) then 8 else 2.

Definition demo_ata (wallet program mint : Address) : Address := 100 * mint + wallet.

Definition demo_config (mx my f : Z) : Config := mkConfig 1 7 (repeat 0 32) mx my f 255.

(** A pool on mints [mx], [my] with fee [f], reserves [rx], [ry], share
    supply [l] (all held by the user), user balances of 5000 X and Y. *)
Definition demo_world (now mx my f rx ry l : Z) : World :=
  mkWorld now {[8 := demo_config mx my f]}
    (<[demo_ata 8 9 mx := mkTokenAccount mx 8 rx]>
      (<[demo_ata 8 9 my := mkTokenAccount my 8 ry]>
        (<[5 := mkTokenAccount mx 1 5000]>
          (<[6 := mkTokenAccount my 1 5000]> {[7 := mkTokenAccount 2 1 l]}))))
    {[2 := mkMint l (Some 8) 6]}.

Definition u64_le (v : Z) : list Z := Z_to_le_bytes 8 v.

Definition demo_pool_accounts (mx my : Z) : list Address :=
  [1; 2; demo_ata 8 9 mx; demo_ata 8 9 my; 5; 6; 7; 8; 9].

Definition demo_swap_accounts (mx my : Z) : list Address :=
  [1; 5; 6; demo_ata 8 9 mx; demo_ata 8 9 my; 8; 9].

(** A world before any pool exists, holding token accounts of a single
    mint 10: an empty reserve account 1008 (the associated account of 8),
    the user's accounts 5 and 6 with 5000 each, and an LP account 7. *)
Definition demo_one_mint_world : World :=
  mkWorld 100 ∅
    (<[1008 := mkTokenAccount 10 8 0]> (<[5 := mkTokenAccount 10 1 5000]>
      (<[6 := mkTokenAccount 10 1 5000]> {[7 := mkTokenAccount 2 1 0]})))
    ∅.

(** An Initialize payload: seed 7, fee 30, mint_x and mint_y both 10,
    bumps 255 and 254, no authority. *)
Definition demo_one_mint_init : list Z :=
  u64_le 7 ++ [30; 0] ++ address_bytes 10 ++ address_bytes 10 ++ [255; 254].

(* ================================================================== *)
(** * Properties *)

(** ** Byte slices *)

Lemma slice_app_l (off len : nat) (l z : list Z) :
  (off + len <= length l)%nat -> slice off len (l ++ z) = slice off len l.
Proof.
  intros H. unfold slice. rewrite skipn_app.
  replace (off - length l)%nat with 0%nat by lia.
  rewrite skipn_O, firstn_app, length_skipn.
  replace (len - (length l - off))%nat with 0%nat by lia.
  simpl. rewrite app_nil_r. reflexivity.
Qed.

Lemma slice_app_r (l z : list Z) :
  slice (length l) (length z) (l ++ z) = z.
Proof.
  unfold slice. rewrite skipn_app, skipn_all, Nat.sub_diag, skipn_O.
  simpl. apply firstn_all.
Qed.

Lemma byte_at_app_l (off : nat) (l z : list Z) :
  (off < length l)%nat -> byte_at off (l ++ z) = byte_at off l.
Proof. intros H. unfold byte_at. rewrite app_nth1 by exact H. reflexivity. Qed.

(** ** C8: the Initialize payload decoder *)

(** C8: [InitializeInstructionData::try_from] accepts exactly the payloads
    of 108 bytes (authority read from the last 32 bytes) and of 76 bytes
    (every field read from the payload, the authority zero-filled); any
    other length is refused with [InvalidInstructionData]. *)
Theorem initialize_decoder_two_lengths (data : list Z) :
  match initialize_data_try_from data with
  | Ok d =>
      (length data = 108%nat /\ d = read_initialize_data data
       /\ init_authority d = slice 76 32 data)
      \/ (length data = 76%nat
          /\ init_seed d = le_bytes_to_Z (slice 0 8 data)
          /\ init_fee d = le_bytes_to_Z (slice 8 2 data)
          /\ init_mint_x d = slice 10 32 data
          /\ init_mint_y d = slice 42 32 data
          /\ init_config_bump d = byte_at 74 data
          /\ init_lp_bump d = byte_at 75 data
          /\ init_authority d = repeat 0 32)
  | Err e => e = InvalidInstructionData /\ length data <> 108%nat /\ length data <> 76%nat
  end.
Proof.
  unfold initialize_data_try_from, INITIALIZE_DATA_LEN, INITIALIZE_DATA_LEN_WITH_AUTHORITY.
  change (8 + 2 + 32 + 32 + 1 + 1 + 32)%nat with 108%nat.
  change (108 - 32)%nat with 76%nat.
  destruct (Nat.eqb (length data) 108) eqn:H108.
  - apply Nat.eqb_eq in H108. cbv beta iota. left. auto.
  - apply Nat.eqb_neq in H108.
    destruct (Nat.eqb (length data) 76) eqn:H76.
    + apply Nat.eqb_eq in H76. cbv beta iota. right. unfold read_initialize_data; simpl.
      rewrite !slice_app_l by lia.
      rewrite !byte_at_app_l by lia.
      repeat split; try reflexivity; try exact H76.
      pose proof (slice_app_r data (repeat 0 32)) as Hs.
      rewrite repeat_length, H76 in Hs. exact Hs.
    + apply Nat.eqb_neq in H76. cbv beta iota. auto.
Qed.

(** ** C9: the Withdraw decoder sets no floor on [min_x], [min_y] *)

Lemma pool_accounts_nine (accs : list Address) :
  length accs = 9%nat -> exists a, pool_accounts_try_from accs = Ok a.
Proof.
  intros H.
  do 9 (destruct accs as [|? accs]; [discriminate H|]).
  destruct accs; [|discriminate H].
  eexists. reflexivity.
Qed.

Lemma swap_accounts_seven (accs : list Address) :
  length accs = 7%nat -> exists a, swap_accounts_try_from accs = Ok a.
Proof.
  intros H.
  do 7 (destruct accs as [|? accs]; [discriminate H|]).
  destruct accs; [|discriminate H].
  eexists. reflexivity.
Qed.

(** C9: with nine accounts, every 32-byte payload whose amount field is
    positive decodes as a Withdraw whatever its [min_x] and [min_y]; with
    both at zero the slippage floor of [Withdraw::process] accepts every
    amount.  The same payload is refused as a Deposit when [max_x] or
    [max_y] is zero, and a Swap payload is refused when [min] is zero. *)
Theorem withdraw_decoder_no_min_floor (data : list Z) (accs : list Address) :
  length accs = 9%nat -> length data = 32%nat -> 0 < le_bytes_to_Z (slice 0 8 data) ->
  (exists a d, withdraw_try_from data accs = Ok (a, d)
     /\ wd_min_x d = le_bytes_to_Z (slice 8 8 data)
     /\ wd_min_y d = le_bytes_to_Z (slice 16 8 data)
     /\ (wd_min_x d = 0 -> wd_min_y d = 0 ->
         forall x y, 0 <= x -> 0 <= y -> (x >=? wd_min_x d) && (y >=? wd_min_y d) = true))
  /\ (le_bytes_to_Z (slice 8 8 data) = 0 \/ le_bytes_to_Z (slice 16 8 data) = 0 ->
      deposit_try_from data accs = Err InvalidInstructionData)
  /\ (forall (sdata : list Z) (saccs : list Address),
        length saccs = 7%nat -> length sdata = 25%nat -> le_bytes_to_Z (slice 9 8 sdata) = 0 ->
        swap_try_from sdata saccs = Err InvalidInstructionData).
Proof.
  intros Hacc Hlen Hamt.
  destruct (pool_accounts_nine accs Hacc) as [a Ha].
  split; [|split].
  - exists a. unfold withdraw_try_from. rewrite Ha.
    unfold withdraw_data_try_from. rewrite Hlen. simpl.
    destruct (Z.eqb_spec (le_bytes_to_Z (slice 0 8 data)) 0) as [E|E]; [lia|].
    eexists. split; [reflexivity|]. simpl.
    split; [reflexivity|]. split; [reflexivity|].
    intros -> -> x y Hx Hy. apply andb_true_intro. split; apply Z.geb_le; lia.
  - intros Hz. unfold deposit_try_from. rewrite Ha.
    unfold deposit_data_try_from. rewrite Hlen. simpl.
    destruct Hz as [Hz | Hz]; rewrite Hz; simpl;
      [rewrite orb_true_r | rewrite orb_true_r]; reflexivity.
  - intros sdata saccs Hs Hsl Hmin.
    destruct (swap_accounts_seven saccs Hs) as [sa Hsa].
    unfold swap_try_from. rewrite Hsa.
    unfold swap_data_try_from. rewrite Hsl. simpl. rewrite Hmin.
    simpl. rewrite orb_true_r. reflexivity.
Qed.

(** ** C10: the swap direction byte *)

(** C10: [is_x] holds for every nonzero direction byte; [Swap::process]
    with any nonzero byte runs exactly as with the byte 1, and only the
    byte 0 selects the token-Y input direction. *)
Theorem swap_direction_nonzero_is_x
    (derive_pda : list (list Z) -> Address) (find_ata : Address -> Address -> Address -> Address)
    (a : SwapAccounts) (b amt mn exp : Z) (signers : list Address) (w : World) :
  is_x (mkSwapInstructionData b amt mn exp) = negb (b =? 0)
  /\ swap_process derive_pda find_ata a (mkSwapInstructionData b amt mn exp) signers w
     = swap_process derive_pda find_ata a
         (mkSwapInstructionData (if b =? 0 then 0 else 1) amt mn exp) signers w.
Proof.
  split; [reflexivity|].
  unfold swap_process, is_x. simpl sw_is_x.
  destruct (b =? 0); reflexivity.
Qed.

(** ** The monad: inversion of successful runs *)

Lemma bind_inv_ok {A B} (m : M A) (k : A -> M B) (w w' : World) (b : B) :
  bind m k w = (w', Ok b) -> exists w1 x, m w = (w1, Ok x) /\ k x w1 = (w', Ok b).
Proof.
  unfold bind. destruct (m w) as [w1 [x|e]]; intros H; [eauto | discriminate H].
Qed.

Lemma get_inv (w w1 x : World) : get w = (w1, Ok x) -> w1 = w /\ x = w.
Proof. unfold get. intros H. inversion H. auto. Qed.

Lemma guard_inv (b : bool) (e : ProgramError) (w w1 : World) (x : unit) :
  guard b e w = (w1, Ok x) -> w1 = w /\ b = true.
Proof. unfold guard, ret, fail. destruct b; intros H; inversion H; auto. Qed.

Lemma config_load_inv (a : Address) (w w1 : World) (c : Config) :
  config_load a w = (w1, Ok c) -> w1 = w /\ configs w !! a = Some c.
Proof.
  unfold config_load. destruct (configs w !! a) eqn:E; intros H; inversion H; subst; auto.
Qed.

Ltac peel H := apply bind_inv_ok in H; destruct H as (?w & ?x & ?Hstep & H).

(** ** C5: the pool-state gates *)

(** C5: Deposit and Swap run only when the pool is [Initialized], Withdraw
    only when it is not [Disabled]: in any other state the handler fails
    without effect, with [InvalidAccountData] (the state error) whenever
    the order has not expired; and a handler that succeeds found its pool
    in an admitted state. *)
Theorem pool_state_gates
    (derive_pda : list (list Z) -> Address) (find_ata : Address -> Address -> Address -> Address) :
  (forall a d signers w c,
     configs w !! pa_config a = Some c -> state c <> AmmState_Initialized ->
     exists e, deposit_process derive_pda find_ata a d signers w = (w, Err e)
               /\ (clock w < dep_expiration d -> e = InvalidAccountData))
  /\ (forall a d signers w c,
     configs w !! sa_config a = Some c -> state c <> AmmState_Initialized ->
     exists e, swap_process derive_pda find_ata a d signers w = (w, Err e)
               /\ (clock w < sw_expiration d -> e = InvalidAccountData))
  /\ (forall a d signers w c,
     configs w !! pa_config a = Some c -> state c = AmmState_Disabled ->
     exists e, withdraw_process derive_pda find_ata a d signers w = (w, Err e)
               /\ (clock w < wd_expiration d -> e = InvalidAccountData))
  /\ (forall a d signers w w',
     deposit_process derive_pda find_ata a d signers w = (w', Ok tt) ->
     exists c, configs w !! pa_config a = Some c /\ state c = AmmState_Initialized)
  /\ (forall a d signers w w',
     swap_process derive_pda find_ata a d signers w = (w', Ok tt) ->
     exists c, configs w !! sa_config a = Some c /\ state c = AmmState_Initialized)
  /\ (forall a d signers w w',
     withdraw_process derive_pda find_ata a d signers w = (w', Ok tt) ->
     exists c, configs w !! pa_config a = Some c /\ state c <> AmmState_Disabled).
Proof.
  split; [|split; [|split; [|split; [|split]]]].
  - intros a d signers w c Hc Hs.
    unfold deposit_process, bind, get, guard, ret, fail, config_load.
    destruct (clock w >=? dep_expiration d) eqn:Ex; simpl.
    + eexists. split; [reflexivity|]. intros Hlt. apply Z.geb_le in Ex. lia.
    + rewrite Hc. apply Z.eqb_neq in Hs. rewrite Hs. eauto.
  - intros a d signers w c Hc Hs.
    unfold swap_process, bind, get, guard, ret, fail, config_load.
    destruct (clock w >=? sw_expiration d) eqn:Ex; simpl.
    + eexists. split; [reflexivity|]. intros Hlt. apply Z.geb_le in Ex. lia.
    + rewrite Hc. apply Z.eqb_neq in Hs. rewrite Hs. eauto.
  - intros a d signers w c Hc Hs.
    unfold withdraw_process, bind, get, guard, ret, fail, config_load.
    destruct (clock w >=? wd_expiration d) eqn:Ex; simpl.
    + eexists. split; [reflexivity|]. intros Hlt. apply Z.geb_le in Ex. lia.
    + rewrite Hc, Hs. simpl. eauto.
  - intros a d signers w w' H. unfold deposit_process in H.
    peel H. apply get_inv in Hstep as [-> ->].
    peel H. apply guard_inv in Hstep as [-> _].
    peel H. apply config_load_inv in Hstep as [-> Hc].
    peel H. apply guard_inv in Hstep as [-> Hs].
    eexists. split; [exact Hc|]. apply Z.eqb_eq. exact Hs.
  - intros a d signers w w' H. unfold swap_process in H.
    peel H. apply get_inv in Hstep as [-> ->].
    peel H. apply guard_inv in Hstep as [-> _].
    peel H. apply config_load_inv in Hstep as [-> Hc].
    peel H. apply guard_inv in Hstep as [-> Hs].
    eexists. split; [exact Hc|]. apply Z.eqb_eq. exact Hs.
  - intros a d signers w w' H. unfold withdraw_process in H.
    peel H. apply get_inv in Hstep as [-> ->].
    peel H. apply guard_inv in Hstep as [-> _].
    peel H. apply config_load_inv in Hstep as [-> Hc].
    peel H. apply guard_inv in Hstep as [-> Hs].
    eexists. split; [exact Hc|]. apply negb_true_iff, Z.eqb_neq in Hs. exact Hs.
Qed.

(** ** C6: the expiry check *)

(** C6 (as amended): once the account list and the payload have decoded
    (account count, payload length, positive amount fields), a Deposit,
    Withdraw or Swap whose [expiration] is at or before the clock fails with
    the order-expired error [Custom 1], in every world with that clock:
    before the config is loaded, the vaults are checked or any balance is
    read, and without effect. *)
Theorem expired_order_fails_first
    (derive_pda : list (list Z) -> Address) (find_ata : Address -> Address -> Address -> Address) :
  (forall data accs signers w a d,
     deposit_try_from data accs = Ok (a, d) -> dep_expiration d <= clock w ->
     deposit_ix derive_pda find_ata data accs signers w = (w, Err (Custom 1)))
  /\ (forall data accs signers w a d,
     withdraw_try_from data accs = Ok (a, d) -> wd_expiration d <= clock w ->
     withdraw_ix derive_pda find_ata data accs signers w = (w, Err (Custom 1)))
  /\ (forall data accs signers w a d,
     swap_try_from data accs = Ok (a, d) -> sw_expiration d <= clock w ->
     swap_ix derive_pda find_ata data accs signers w = (w, Err (Custom 1))).
Proof.
  split; [|split]; intros data accs signers w a d Hdec Hexp.
  - unfold deposit_ix. rewrite Hdec.
    unfold deposit_process, bind, get, guard, ret, fail.
    apply Z.geb_le in Hexp. rewrite Hexp. reflexivity.
  - unfold withdraw_ix. rewrite Hdec.
    unfold withdraw_process, bind, get, guard, ret, fail.
    apply Z.geb_le in Hexp. rewrite Hexp. reflexivity.
  - unfold swap_ix. rewrite Hdec.
    unfold swap_process, bind, get, guard, ret, fail.
    apply Z.geb_le in Hexp. rewrite Hexp. reflexivity.
Qed.

(** C6, counterexample: a Deposit expired long ago (expiration 50, clock
    100) with a zero share amount fails with the decoder's
    [InvalidInstructionData], not with the order-expired error. *)
Lemma expired_deposit_decode_error_first :
  let data := u64_le 0 ++ u64_le 1000 ++ u64_le 2000 ++ u64_le 50 in
  let w := demo_world 100 10 11 30 0 0 0 in
  i64_of_le (slice 24 8 data) <= clock w
  /\ deposit_ix demo_pda demo_ata data (demo_pool_accounts 10 11) [1] w
     = (w, Err InvalidInstructionData).
Proof. vm_compute. split; [discriminate | reflexivity]. Qed.

(** ** Invariants of the handlers *)

Definition preserves {A} (P : World -> Prop) (m : M A) : Prop :=
  forall w, P w -> P (fst (m w)).

Definition keeps_configs {A} (m : M A) : Prop :=
  forall w, configs (fst (m w)) = configs w.

Lemma preserves_bind {A B} (P : World -> Prop) (m : M A) (k : A -> M B) :
  preserves P m -> (forall a, preserves P (k a)) -> preserves P (bind m k).
Proof.
  intros Hm Hk w Hw. unfold bind.
  specialize (Hm w Hw). destruct (m w) as [w1 [a|e]]; simpl in *; auto.
  apply Hk. exact Hm.
Qed.

Lemma fees_valid_keeps {A} (m : M A) : keeps_configs m -> preserves fees_valid m.
Proof. intros H w Hw. unfold fees_valid. rewrite H. exact Hw. Qed.

Lemma keeps_ret {A} (a : A) : keeps_configs (ret a).
Proof. intros w. reflexivity. Qed.
Lemma keeps_fail {A} (e : ProgramError) : keeps_configs (@fail A e).
Proof. intros w. reflexivity. Qed.
Lemma keeps_get : keeps_configs get.
Proof. intros w. reflexivity. Qed.
Lemma keeps_guard b e : keeps_configs (guard b e).
Proof. intros w. unfold guard. destruct b; reflexivity. Qed.
Lemma keeps_lift_option {A} (o : option A) e : keeps_configs (lift_option o e).
Proof. intros w. unfold lift_option. destruct o; reflexivity. Qed.
Lemma keeps_config_load a : keeps_configs (config_load a).
Proof. intros w. unfold config_load. destruct (configs w !! a); reflexivity. Qed.
Lemma keeps_mint_load a : keeps_configs (mint_load a).
Proof. intros w. unfold mint_load. destruct (mints w !! a); reflexivity. Qed.
Lemma keeps_token_account_load a : keeps_configs (token_account_load a).
Proof. intros w. unfold token_account_load. destruct (tokens w !! a); reflexivity. Qed.
Lemma keeps_transfer f t au am s : keeps_configs (token_transfer f t au am s).
Proof. intros w. unfold token_transfer. repeat case_match; reflexivity. Qed.
Lemma keeps_mint_to m a au am s : keeps_configs (token_mint_to m a au am s).
Proof. intros w. unfold token_mint_to. repeat case_match; reflexivity. Qed.
Lemma keeps_burn m a au am s : keeps_configs (token_burn m a au am s).
Proof. intros w. unfold token_burn. repeat case_match; reflexivity. Qed.
Lemma keeps_create_account pda n p sd s : keeps_configs (create_account pda n p sd s).
Proof. intros w. unfold create_account. repeat case_match; reflexivity. Qed.
Lemma keeps_initialize_mint2 m dec au : keeps_configs (initialize_mint2 m dec au).
Proof. intros w. unfold initialize_mint2. repeat case_match; reflexivity. Qed.

Create HintDb keeps.
#[export] Hint Resolve keeps_ret keeps_fail keeps_get keeps_guard keeps_lift_option
  keeps_config_load keeps_mint_load keeps_token_account_load keeps_transfer
  keeps_mint_to keeps_burn keeps_create_account keeps_initialize_mint2 : keeps.

(** Walk a handler: split binds, branch on its matches, close the
    primitive steps. *)
Ltac preserve_tac :=
  repeat first
    [ apply preserves_bind; [| intros ? ]
    | apply fees_valid_keeps; solve [ auto with keeps ]
    | match goal with |- preserves _ (match ?x with _ => _ end) => destruct x end
    | match goal with |- preserves _ (if ?b then _ else _) => destruct b end ].

Lemma le_bytes_to_Z_nonneg (bs : list Z) : 0 <= le_bytes_to_Z bs.
Proof.
  induction bs as [|b r IH]; simpl; [lia|].
  pose proof (Z.mod_pos_bound b 256). lia.
Qed.

Lemma set_inner_fee c sd auth mx my f bump c' r :
  set_inner c sd auth mx my f bump = (c', r) ->
  fee c' = fee c \/ (fee c' = f /\ f < 10000).
Proof.
  unfold set_inner, set_state, set_fee.
  destruct (AmmState_Initialized >? AmmState_WithdrawOnly); intros H.
  - inversion H; subst. left. reflexivity.
  - destruct (f >=? 10000) eqn:E; inversion H; subst; simpl.
    + left. reflexivity.
    + right. split; [reflexivity|]. rewrite Z.geb_leb in E. apply Z.leb_gt in E. lia.
Qed.

Lemma config_set_inner_preserves a d :
  0 <= init_fee d -> preserves fees_valid (config_set_inner a d).
Proof.
  intros Hf w Hw. unfold config_set_inner.
  destruct (configs w !! a) as [c|] eqn:Ec; [|exact Hw].
  destruct (set_inner c _ _ _ _ _ _) as [c' r] eqn:Es. simpl.
  unfold fees_valid; simpl. apply map_Forall_insert_2; [|exact Hw].
  apply set_inner_fee in Es as [-> | [-> Hlt]]; [|lia].
  exact (Hw a c Ec).
Qed.

Lemma create_config_account_preserves a : preserves fees_valid (create_config_account a).
Proof.
  intros w Hw. unfold fees_valid; simpl.
  apply map_Forall_insert_2; [simpl; lia | exact Hw].
Qed.

Lemma initialize_try_from_fee (data : list Z) (accs : list Address) a d :
  initialize_try_from data accs = Ok (a, d) -> 0 <= init_fee d.
Proof.
  unfold initialize_try_from.
  destruct (initialize_accounts_try_from accs); [|discriminate].
  unfold initialize_data_try_from.
  destruct (Nat.eqb (length data) _); [|destruct (Nat.eqb (length data) _)];
    intros Hok; inversion Hok; subst; apply le_bytes_to_Z_nonneg.
Qed.

Lemma exec_ix_preserves_fees derive_pda find_ata (i : Instr) :
  preserves fees_valid (exec_ix derive_pda find_ata i).
Proof.
  destruct i as [data accs s | data accs s | data accs s | data accs s]; simpl.
  - unfold initialize_ix.
    destruct (initialize_try_from data accs) as [[a d]|e] eqn:Hd;
      [|apply fees_valid_keeps; auto with keeps].
    apply initialize_try_from_fee in Hd.
    unfold initialize_process. cbv zeta.
    apply preserves_bind; [apply fees_valid_keeps; auto with keeps | intros _].
    apply preserves_bind; [apply create_config_account_preserves | intros _].
    apply preserves_bind; [apply config_set_inner_preserves; exact Hd | intros _].
    apply preserves_bind; [apply fees_valid_keeps; auto with keeps | intros _].
    apply fees_valid_keeps; auto with keeps.
  - unfold deposit_ix. destruct (deposit_try_from data accs) as [[a d]|e];
      [|apply fees_valid_keeps; auto with keeps].
    unfold deposit_process, check_vaults. cbv zeta. preserve_tac.
  - unfold withdraw_ix. destruct (withdraw_try_from data accs) as [[a d]|e];
      [|apply fees_valid_keeps; auto with keeps].
    unfold withdraw_process, check_vaults. cbv zeta. preserve_tac.
  - unfold swap_ix. destruct (swap_try_from data accs) as [[a d]|e];
      [|apply fees_valid_keeps; auto with keeps].
    unfold swap_process, check_vaults. cbv zeta. preserve_tac.
Qed.

Lemma commit_preserves (P : World -> Prop) (m : M unit) :
  preserves P m -> forall w, P w -> P (fst (commit m w)).
Proof.
  intros H w Hw. unfold commit. specialize (H w Hw).
  destruct (m w) as [w' [[]|e]]; simpl in *; assumption.
Qed.

(** ** C7: the fee stays in [0, 10000) *)

(** C7: [Config::set_fee] refuses every fee of 10000 or more and leaves
    the record as it was; every Initialize whose payload carries such a fee
    fails; and every instruction of the program, run by the host, keeps
    every stored pool fee in [0, 10000). *)
Theorem fee_always_below_10000
    (derive_pda : list (list Z) -> Address) (find_ata : Address -> Address -> Address -> Address) :
  (forall (c : Config) (f : Z), 10000 <= f -> set_fee c f = (c, Err InvalidAccountData))
  /\ (forall data accs signers w a d,
        initialize_try_from data accs = Ok (a, d) -> 10000 <= init_fee d ->
        exists e, commit (initialize_ix derive_pda data accs signers) w = (w, Err e))
  /\ (forall (i : Instr) (w : World),
        fees_valid w -> fees_valid (step derive_pda find_ata i w)).
Proof.
  split; [|split].
  - intros c f Hf. unfold set_fee.
    replace (f >=? 10000) with true by (symmetry; apply Z.geb_le; lia). reflexivity.
  - intros data accs signers w a d Hd Hf.
    unfold commit, initialize_ix. rewrite Hd.
    unfold initialize_process. cbv zeta. unfold bind at 1.
    destruct (create_account derive_pda _ _ _ _ w) as [w1 [[]|e]] eqn:Hc; [|eauto].
    unfold bind, create_config_account, config_set_inner. simpl.
    rewrite lookup_insert_eq.
    unfold set_inner, set_state, set_fee. simpl.
    replace (init_fee d >=? 10000) with true by (symmetry; apply Z.geb_le; lia).
    eauto.
  - intros i w Hw. unfold step.
    apply commit_preserves; [apply exec_ix_preserves_fees | exact Hw].
Qed.

(** ** The token ledger: effects of successful operations *)

Lemma transfer_ok f t au am signers w w' x :
  token_transfer f t au am signers w = (w', Ok x) ->
  exists src dst, tokens w !! f = Some src /\ tokens w !! t = Some dst
    /\ am <= ta_amount src /\ ta_mint src = ta_mint dst /\ ta_owner src = au
    /\ is_signer au signers = true
    /\ configs w' = configs w /\ mints w' = mints w /\ clock w' = clock w
    /\ (forall z, balance w' z
                  = balance w z - (if z =? f then am else 0) + (if z =? t then am else 0))
    /\ (forall z, token_shape <$> tokens w' !! z = token_shape <$> tokens w !! z).
Proof.
  unfold token_transfer.
  destruct (tokens w !! f) as [src|] eqn:Hf; [|intros H; inversion H].
  destruct (tokens w !! t) as [dst|] eqn:Ht; [|intros H; inversion H].
  destruct (ta_amount src <? am) eqn:E1; [intros H; inversion H|].
  destruct (negb (ta_mint src =? ta_mint dst)) eqn:E2; [intros H; inversion H|].
  destruct (negb (ta_owner src =? au)) eqn:E3; [intros H; inversion H|].
  destruct (negb (is_signer au signers)) eqn:E4; [intros H; inversion H|].
  apply Z.ltb_ge in E1.
  apply negb_false_iff, Z.eqb_eq in E2, E3. apply negb_false_iff in E4.
  destruct (f =? t) eqn:E5.
  - apply Z.eqb_eq in E5. subst t. intros H. inversion H; subst.
    exists src, dst. repeat split; auto.
    intros z. destruct (z =? f); lia.
  - apply Z.eqb_neq in E5.
    destruct (ta_amount dst + am >? u64_max); intros H; inversion H; subst.
    exists src, dst. repeat split; auto.
    + intros z. unfold balance, set_tokens; simpl.
      destruct (Z.eqb_spec z t) as [->|Hzt].
      * rewrite lookup_insert_eq, Ht. destruct (Z.eqb_spec t f); [congruence|]. simpl. lia.
      * rewrite lookup_insert_ne by congruence.
        destruct (Z.eqb_spec z f) as [->|Hzf].
        -- rewrite lookup_insert_eq, Hf. simpl. lia.
        -- rewrite lookup_insert_ne by congruence. lia.
    + intros z. unfold set_tokens; simpl.
      destruct (Z.eqb_spec z t) as [->|Hzt].
      * rewrite lookup_insert_eq, Ht. reflexivity.
      * rewrite lookup_insert_ne by congruence.
        destruct (Z.eqb_spec z f) as [->|Hzf].
        -- rewrite lookup_insert_eq, Hf. reflexivity.
        -- rewrite lookup_insert_ne by congruence. reflexivity.
Qed.

Lemma burn_ok mint acc au am signers w w' x :
  token_burn mint acc au am signers w = (w', Ok x) ->
  exists src m, tokens w !! acc = Some src /\ mints w !! mint = Some m
    /\ am <= ta_amount src /\ ta_owner src = au /\ is_signer au signers = true
    /\ configs w' = configs w /\ clock w' = clock w
    /\ (forall z, balance w' z = balance w z - (if z =? acc then am else 0))
    /\ (forall z, token_shape <$> tokens w' !! z = token_shape <$> tokens w !! z)
    /\ mints w' !! mint = Some (mkMint (supply m - am) (mint_authority m) (decimals m)).
Proof.
  unfold token_burn.
  destruct (tokens w !! acc) as [src|] eqn:Ha; [|intros H; inversion H].
  destruct (mints w !! mint) as [m|] eqn:Hm; [|intros H; inversion H].
  destruct (ta_amount src <? am) eqn:E1; [intros H; inversion H|].
  destruct (negb (ta_mint src =? mint)) eqn:E2; [intros H; inversion H|].
  destruct (negb (ta_owner src =? au)) eqn:E3; [intros H; inversion H|].
  destruct (negb (is_signer au signers)) eqn:E4; [intros H; inversion H|].
  destruct (supply m <? am); intros H; inversion H; subst.
  apply Z.ltb_ge in E1. apply negb_false_iff, Z.eqb_eq in E3. apply negb_false_iff in E4.
  exists src, m. repeat split; auto.
  - intros z. unfold balance; simpl.
    destruct (Z.eqb_spec z acc) as [->|Hz].
    + rewrite lookup_insert_eq, Ha. simpl. lia.
    + rewrite lookup_insert_ne by congruence. lia.
  - intros z. simpl. destruct (Z.eqb_spec z acc) as [->|Hz].
    + rewrite lookup_insert_eq, Ha. reflexivity.
    + rewrite lookup_insert_ne by congruence. reflexivity.
  - simpl. apply lookup_insert_eq.
Qed.

Lemma mint_to_ok mint acc au am signers w w' x :
  token_mint_to mint acc au am signers w = (w', Ok x) ->
  exists m, mints w !! mint = Some m
    /\ configs w' = configs w /\ clock w' = clock w
    /\ (forall z, balance w' z = balance w z + (if z =? acc then am else 0))
    /\ (forall z, token_shape <$> tokens w' !! z = token_shape <$> tokens w !! z)
    /\ mints w' !! mint = Some (mkMint (supply m + am) (mint_authority m) (decimals m)).
Proof.
  unfold token_mint_to.
  destruct (mints w !! mint) as [m|] eqn:Hm; [|intros H; inversion H].
  destruct (tokens w !! acc) as [dst|] eqn:Ha; [|intros H; inversion H].
  destruct (negb (ta_mint dst =? mint)); [intros H; inversion H|].
  destruct (mint_authority m) as [ma|] eqn:Hma; [|intros H; inversion H].
  destruct (negb (ma =? au)); [intros H; inversion H|].
  destruct (negb (is_signer au signers)); [intros H; inversion H|].
  destruct (ta_amount dst + am >? u64_max); [intros H; inversion H|].
  destruct (supply m + am >? u64_max); intros H; inversion H; subst.
  exists m. repeat split; auto.
  - intros z. unfold balance; simpl.
    destruct (Z.eqb_spec z acc) as [->|Hz].
    + rewrite lookup_insert_eq, Ha. simpl. lia.
    + rewrite lookup_insert_ne by congruence. lia.
  - intros z. simpl. destruct (Z.eqb_spec z acc) as [->|Hz].
    + rewrite lookup_insert_eq, Ha. reflexivity.
    + rewrite lookup_insert_ne by congruence. reflexivity.
  - simpl. rewrite lookup_insert_eq, Hma. reflexivity.
Qed.

(** Successful reads leave the world as it was. *)
Lemma mint_load_inv a w w1 m : mint_load a w = (w1, Ok m) -> w1 = w /\ mints w !! a = Some m.
Proof. unfold mint_load. destruct (mints w !! a); intros H; inversion H; subst; auto. Qed.

Lemma token_account_load_inv a w w1 t :
  token_account_load a w = (w1, Ok t) -> w1 = w /\ tokens w !! a = Some t.
Proof. unfold token_account_load. destruct (tokens w !! a); intros H; inversion H; subst; auto. Qed.

Lemma lift_option_inv {A} (o : option A) e w w1 x :
  lift_option o e w = (w1, Ok x) -> w1 = w /\ o = Some x.
Proof. unfold lift_option, ret, fail. destruct o; intros H; inversion H; subst; auto. Qed.

Lemma check_vaults_inv find_ata cfg tp vx vy c w w1 x :
  check_vaults find_ata cfg tp vx vy c w = (w1, Ok x) ->
  w1 = w /\ vx = find_ata cfg tp (mint_x c) /\ vy = find_ata cfg tp (mint_y c).
Proof.
  unfold check_vaults. intros H. peel H. apply guard_inv in Hstep as [-> E1].
  apply guard_inv in H as [-> E2]. apply Z.eqb_eq in E1, E2. auto.
Qed.

(** ** Reading before failing *)

Lemma reads_bind {A B} (m : M A) (k : A -> M B) :
  reads m -> (forall x, reads (k x)) -> reads (bind m k).
Proof.
  unfold reads, bind. intros Hm Hk w. specialize (Hm w).
  destruct (m w) as [w1 [x|e]]; simpl in *; subst; auto.
Qed.

Lemma reads_get : reads get.
Proof. intros w. reflexivity. Qed.
Lemma reads_guard b e : reads (guard b e).
Proof. intros w. unfold guard, ret, fail. destruct b; reflexivity. Qed.
Lemma reads_lift_option {A} (o : option A) e : reads (lift_option o e).
Proof. intros w. unfold lift_option, ret, fail. destruct o; reflexivity. Qed.
Lemma reads_config_load a : reads (config_load a).
Proof. intros w. unfold config_load. destruct (configs w !! a); reflexivity. Qed.
Lemma reads_mint_load a : reads (mint_load a).
Proof. intros w. unfold mint_load. destruct (mints w !! a); reflexivity. Qed.
Lemma reads_token_account_load a : reads (token_account_load a).
Proof. intros w. unfold token_account_load. destruct (tokens w !! a); reflexivity. Qed.
Lemma reads_check_vaults find_ata cfg tp vx vy c : reads (check_vaults find_ata cfg tp vx vy c).
Proof. unfold check_vaults. apply reads_bind; intros; apply reads_guard. Qed.

Create HintDb reads.
#[export] Hint Resolve reads_get reads_guard reads_lift_option reads_config_load
  reads_mint_load reads_token_account_load reads_check_vaults : reads.

Lemma bind_read_clean {A B} (m : M A) (k : A -> M B) (w : World) :
  reads m -> (forall x, m w = (w, Ok x) -> fails_clean (k x) w) -> fails_clean (bind m k) w.
Proof.
  unfold fails_clean, bind. intros Hm Hk. specialize (Hm w).
  destruct (m w) as [w1 [x|e]] eqn:E; simpl in Hm; subst; eauto.
Qed.

Lemma fail_clean_guard {B} e (k : unit -> M B) w : fails_clean (bind (guard false e) k) w.
Proof. exists e. reflexivity. Qed.

Lemma fail_clean_lift_none {A B} e (k : A -> M B) w : fails_clean (bind (lift_option None e) k) w.
Proof. exists e. reflexivity. Qed.

Ltac read_step := apply bind_read_clean; [auto with reads | intros ?x ?Hx].

(** ** C2: slippage failures change nothing *)

(** C2: when the amounts a Deposit computes exceed [max_x] or [max_y], the
    amounts a Withdraw computes fall below [min_x] or [min_y], or the
    output a Swap computes is below [min], the handler fails and the
    world (every account) is exactly as before. *)
Theorem slippage_failure_no_effect
    (derive_pda : list (list Z) -> Address) (find_ata : Address -> Address -> Address -> Address) :
  (forall a d signers w m tx ty x y,
     mints w !! pa_mint_lp a = Some m ->
     tokens w !! pa_vault_x a = Some tx -> tokens w !! pa_vault_y a = Some ty ->
     deposit_amounts m tx ty d = Some (x, y) ->
     dep_max_x d < x \/ dep_max_y d < y ->
     fails_clean (deposit_process derive_pda find_ata a d signers) w)
  /\ (forall a d signers w m tx ty x y,
     mints w !! pa_mint_lp a = Some m ->
     tokens w !! pa_vault_x a = Some tx -> tokens w !! pa_vault_y a = Some ty ->
     withdraw_amounts m tx ty d = Some (x, y) ->
     x < wd_min_x d \/ y < wd_min_y d ->
     fails_clean (withdraw_process derive_pda find_ata a d signers) w)
  /\ (forall a d signers w c tx ty r,
     configs w !! sa_config a = Some c ->
     tokens w !! sa_vault_x a = Some tx -> tokens w !! sa_vault_y a = Some ty ->
     cp_swap_unsafe (mkConstantProduct (ta_amount tx) (ta_amount ty) (ta_amount tx) (fee c))
       (if is_x d then PairX else PairY) (sw_amount d) = Some r ->
     withdraw r < sw_min d ->
     fails_clean (swap_process derive_pda find_ata a d signers) w).
Proof.
  split; [|split].
  - intros a d signers w m tx ty x y Hm Htx Hty Hxy Hslip.
    unfold deposit_process.
    do 9 read_step.
    unfold mint_load in Hx4. rewrite Hm in Hx4. inversion Hx4; subst.
    unfold token_account_load in Hx5, Hx6. rewrite Htx in Hx5. rewrite Hty in Hx6.
    inversion Hx5; inversion Hx6; subst.
    unfold lift_option in Hx7. rewrite Hxy in Hx7. inversion Hx7; subst.
    replace ((x <=? dep_max_x d) && (y <=? dep_max_y d)) with false.
    + apply fail_clean_guard.
    + symmetry. apply andb_false_iff.
      destruct Hslip; [left | right]; apply Z.leb_gt; lia.
  - intros a d signers w m tx ty x y Hm Htx Hty Hxy Hslip.
    unfold withdraw_process.
    do 9 read_step.
    unfold mint_load in Hx4. rewrite Hm in Hx4. inversion Hx4; subst.
    unfold token_account_load in Hx5, Hx6. rewrite Htx in Hx5. rewrite Hty in Hx6.
    inversion Hx5; inversion Hx6; subst.
    unfold lift_option in Hx7. rewrite Hxy in Hx7. inversion Hx7; subst.
    replace ((x >=? wd_min_x d) && (y >=? wd_min_y d)) with false.
    + apply fail_clean_guard.
    + symmetry. apply andb_false_iff. rewrite !Z.geb_leb.
      destruct Hslip; [left | right]; apply Z.leb_gt; lia.
  - intros a d signers w c tx ty r Hc Htx Hty Hr Hmin.
    unfold swap_process.
    do 8 read_step.
    unfold config_load in Hx1. rewrite Hc in Hx1. injection Hx1 as Hx1. subst x1.
    unfold token_account_load in Hx4, Hx5. rewrite Htx in Hx4. rewrite Hty in Hx5.
    injection Hx4 as Hx4. injection Hx5 as Hx5. subst x4 x5.
    unfold cp_init in Hx6.
    destruct (fee c >=? 10000); [discriminate|].
    unfold lift_option, ret in Hx6. inversion Hx6; subst.
    cbv zeta. unfold cp_swap. rewrite Hr.
    replace (withdraw r <? sw_min d) with true by (symmetry; apply Z.ltb_lt; lia).
    apply fail_clean_lift_none.
Qed.

(** ** Successful handlers, step by step *)

Lemma withdraw_try_from_inv data accs a d :
  withdraw_try_from data accs = Ok (a, d) ->
  pool_accounts_try_from accs = Ok a /\ 0 < wd_amount d.
Proof.
  unfold withdraw_try_from.
  destruct (pool_accounts_try_from accs) as [a'|e]; [|discriminate].
  unfold withdraw_data_try_from.
  destruct (negb (Nat.eqb (length data) 32)); [discriminate|].
  destruct (_ =? 0) eqn:E; [discriminate|].
  intros H. inversion H; subst. simpl in *. split; [reflexivity|].
  apply Z.eqb_neq in E. pose proof (le_bytes_to_Z_nonneg (slice 0 8 data)). lia.
Qed.

Lemma balance_of w a t : tokens w !! a = Some t -> balance w a = ta_amount t.
Proof. unfold balance. intros ->. reflexivity. Qed.

Ltac eqb_cases :=
  repeat match goal with
         | |- context [?a =? ?b] => destruct (Z.eqb_spec a b); subst
         end.

(** ** C3: burning the whole supply takes the whole reserves *)

(** C3: when a Withdraw burns the whole share supply, the amounts it pays
    out are exactly the two reserve balances, not the rounded-down
    proportional ones; if it succeeds and the user's receiving accounts
    are not the reserves themselves, both reserves end at zero. *)
Theorem full_withdraw_empties_reserves
    (derive_pda : list (list Z) -> Address) (find_ata : Address -> Address -> Address -> Address)
    data accs signers w w' a d m tx ty :
  withdraw_try_from data accs = Ok (a, d) ->
  mints w !! pa_mint_lp a = Some m -> supply m = wd_amount d ->
  tokens w !! pa_vault_x a = Some tx -> tokens w !! pa_vault_y a = Some ty ->
  0 <= ta_amount tx -> 0 <= ta_amount ty ->
  withdraw_amounts m tx ty d = Some (ta_amount tx, ta_amount ty)
  /\ (pa_user_x_ata a <> pa_vault_x a -> pa_user_x_ata a <> pa_vault_y a ->
      pa_user_y_ata a <> pa_vault_x a -> pa_user_y_ata a <> pa_vault_y a ->
      withdraw_ix derive_pda find_ata data accs signers w = (w', Ok tt) ->
      balance w' (pa_vault_x a) = 0 /\ balance w' (pa_vault_y a) = 0).
Proof.
  intros Hdec Hm Hsup Htx Hty Hx0 Hy0.
  assert (Hamt : withdraw_amounts m tx ty d = Some (ta_amount tx, ta_amount ty)).
  { unfold withdraw_amounts. rewrite Hsup, Z.eqb_refl. reflexivity. }
  split; [exact Hamt|].
  intros Hux1 Hux2 Huy1 Huy2 H.
  pose proof (withdraw_try_from_inv _ _ _ _ Hdec) as [_ Hpos].
  unfold withdraw_ix in H. rewrite Hdec in H. unfold withdraw_process in H.
  peel H. apply get_inv in Hstep as [-> ->].
  peel H. apply guard_inv in Hstep as [-> _].
  peel H. apply config_load_inv in Hstep as [-> Hc].
  peel H. apply guard_inv in Hstep as [-> _].
  peel H. apply check_vaults_inv in Hstep as [-> _].
  peel H. apply mint_load_inv in Hstep as [-> Hm'].
  rewrite Hm in Hm'. injection Hm' as <-.
  peel H. apply token_account_load_inv in Hstep as [-> Htx'].
  rewrite Htx in Htx'. injection Htx' as <-.
  peel H. apply token_account_load_inv in Hstep as [-> Hty'].
  rewrite Hty in Hty'. injection Hty' as <-.
  peel H. apply lift_option_inv in Hstep as [-> Hxy].
  rewrite Hamt in Hxy. injection Hxy as <-. cbv beta iota in H.
  peel H. apply guard_inv in Hstep as [-> _].
  peel H. apply transfer_ok in Hstep
    as (s1 & d1 & Hs1 & _ & Hle1 & _ & _ & _ & _ & _ & _ & B1 & _).
  peel H. apply transfer_ok in Hstep
    as (s2 & d2 & Hs2 & _ & Hle2 & _ & _ & _ & _ & _ & _ & B2 & _).
  apply burn_ok in H as (s3 & m3 & Hs3 & _ & Hle3 & _ & _ & _ & _ & B3 & _ & _).
  apply balance_of in Hs1, Hs2, Hs3, Htx, Hty.
  rewrite <- Htx in *. rewrite <- Hty in *.
  rewrite <- Hs1 in Hle1. rewrite <- Hs2 in Hle2. rewrite <- Hs3 in Hle3.
  rewrite B2, B1 in Hle3. rewrite B1 in Hle2. rewrite !B3, !B2, !B1.
  set (vx := pa_vault_x a) in *. set (vy := pa_vault_y a) in *.
  set (ux := pa_user_x_ata a) in *. set (uy := pa_user_y_ata a) in *.
  set (ul := pa_user_lp_ata a) in *. clearbody vx vy ux uy ul.
  revert Hle1 Hle2 Hle3. eqb_cases; intros; try congruence; lia.
Qed.

(** C3, as stated, fails: the Withdraw handler does not check where the
    reserves are paid to.  Burning the whole supply (500 shares) with the
    reserves themselves given as the receiving accounts succeeds, burns
    the shares, and leaves the reserves at 1000 and 2000. *)
Lemma full_withdraw_into_reserves_keeps_them :
  let w := demo_world 100 10 11 30 1000 2000 500 in
  let data := u64_le 500 ++ u64_le 0 ++ u64_le 0 ++ u64_le 200 in
  let accs := [1; 2; 1008; 1108; 1008; 1108; 7; 8; 9] in
  let r := withdraw_ix demo_pda demo_ata data accs [1] w in
  mints w !! 2 = Some (mkMint 500 (Some 8) 6)
  /\ snd r = Ok tt
  /\ balance (fst r) 1008 = 1000 /\ balance (fst r) 1108 = 2000
  /\ mints (fst r) !! 2 = Some (mkMint 0 (Some 8) 6).
Proof. vm_compute. repeat split. Qed.

(** ** C4: the first deposit *)

Lemma deposit_try_from_inv data accs a d :
  deposit_try_from data accs = Ok (a, d) ->
  pool_accounts_try_from accs = Ok a /\ 0 < dep_amount d.
Proof.
  unfold deposit_try_from.
  destruct (pool_accounts_try_from accs) as [a'|e]; [|discriminate].
  unfold deposit_data_try_from.
  destruct (negb (Nat.eqb (length data) 32)); [discriminate|].
  destruct (_ || _) eqn:E; [discriminate|].
  intros H. inversion H; subst. simpl in *. split; [reflexivity|].
  apply orb_false_iff in E as [E _]. apply orb_false_iff in E as [E _].
  apply Z.eqb_neq in E. pose proof (le_bytes_to_Z_nonneg (slice 0 8 data)). lia.
Qed.

(** C4: into a pool whose share supply and both reserves are zero, a
    Deposit takes exactly [max_x] and [max_y] and, when it succeeds, mints
    exactly [amount] shares (the supply becomes [amount]); when the two
    reserve accounts are distinct (the pool's mints differ) and none of
    the user's accounts is a reserve, the reserves end at exactly
    [max_x] and [max_y]. *)
Theorem first_deposit_exact
    (derive_pda : list (list Z) -> Address) (find_ata : Address -> Address -> Address -> Address)
    data accs signers w w' a d m tx ty :
  deposit_try_from data accs = Ok (a, d) ->
  mints w !! pa_mint_lp a = Some m -> supply m = 0 ->
  tokens w !! pa_vault_x a = Some tx -> tokens w !! pa_vault_y a = Some ty ->
  ta_amount tx = 0 -> ta_amount ty = 0 ->
  deposit_amounts m tx ty d = Some (dep_max_x d, dep_max_y d)
  /\ (deposit_ix derive_pda find_ata data accs signers w = (w', Ok tt) ->
      mints w' !! pa_mint_lp a = Some (mkMint (dep_amount d) (mint_authority m) (decimals m))
      /\ (pa_vault_x a <> pa_vault_y a ->
          pa_user_x_ata a <> pa_vault_x a -> pa_user_x_ata a <> pa_vault_y a ->
          pa_user_y_ata a <> pa_vault_x a -> pa_user_y_ata a <> pa_vault_y a ->
          pa_user_lp_ata a <> pa_vault_x a -> pa_user_lp_ata a <> pa_vault_y a ->
          balance w' (pa_vault_x a) = dep_max_x d /\ balance w' (pa_vault_y a) = dep_max_y d)).
Proof.
  intros Hdec Hm Hsup Htx Hty Hx0 Hy0.
  assert (Hamt : deposit_amounts m tx ty d = Some (dep_max_x d, dep_max_y d)).
  { unfold deposit_amounts. rewrite Hsup, Hx0, Hy0. reflexivity. }
  split; [exact Hamt|].
  intros H.
  unfold deposit_ix in H. rewrite Hdec in H. unfold deposit_process in H.
  peel H. apply get_inv in Hstep as [-> ->].
  peel H. apply guard_inv in Hstep as [-> _].
  peel H. apply config_load_inv in Hstep as [-> Hc].
  peel H. apply guard_inv in Hstep as [-> _].
  peel H. apply check_vaults_inv in Hstep as [-> _].
  peel H. apply mint_load_inv in Hstep as [-> Hm'].
  rewrite Hm in Hm'. injection Hm' as <-.
  peel H. apply token_account_load_inv in Hstep as [-> Htx'].
  rewrite Htx in Htx'. injection Htx' as <-.
  peel H. apply token_account_load_inv in Hstep as [-> Hty'].
  rewrite Hty in Hty'. injection Hty' as <-.
  peel H. apply lift_option_inv in Hstep as [-> Hxy].
  rewrite Hamt in Hxy. injection Hxy as <-. cbv beta iota in H.
  peel H. apply guard_inv in Hstep as [-> _].
  peel H. apply transfer_ok in Hstep
    as (s1 & d1 & _ & _ & _ & _ & _ & _ & _ & Hmints1 & _ & B1 & _).
  peel H. apply transfer_ok in Hstep
    as (s2 & d2 & _ & _ & _ & _ & _ & _ & _ & Hmints2 & _ & B2 & _).
  apply mint_to_ok in H as (m3 & Hm3 & _ & _ & B3 & _ & Hmint).
  rewrite Hmints2, Hmints1, Hm in Hm3. injection Hm3 as <-.
  split; [rewrite Hmint, Hsup; reflexivity|].
  intros Hv Hux1 Hux2 Huy1 Huy2 Hul1 Hul2.
  apply balance_of in Htx, Hty. rewrite Hx0 in Htx. rewrite Hy0 in Hty.
  rewrite !B3, !B2, !B1.
  set (vx := pa_vault_x a) in *. set (vy := pa_vault_y a) in *.
  set (ux := pa_user_x_ata a) in *. set (uy := pa_user_y_ata a) in *.
  set (ul := pa_user_lp_ata a) in *. clearbody vx vy ux uy ul.
  eqb_cases; try congruence; lia.
Qed.

(** C4, as stated, fails for a pool whose two mints are the same:
    Initialize accepts [mint_x = mint_y], both reserves are then the one
    account 1008, and the first deposit with [max_x = 1000],
    [max_y = 2000], [amount = 500] leaves 3000 in it, read as both
    reserves (the supply is 500). *)
Lemma first_deposit_one_mint_pool :
  let w1 := commit (initialize_ix demo_pda demo_one_mint_init [1; 2; 8; 0; 9] [1])
              demo_one_mint_world in
  let data := u64_le 500 ++ u64_le 1000 ++ u64_le 2000 ++ u64_le 200 in
  let w2 := commit (deposit_ix demo_pda demo_ata data (demo_pool_accounts 10 10) [1]) (fst w1) in
  snd w1 = Ok tt
  /\ configs (fst w1) !! 8 = Some (mkConfig 1 7 (repeat 0 32) 10 10 30 255)
  /\ mints (fst w1) !! 2 = Some (mkMint 0 (Some 8) 6)
  /\ balance (fst w1) 1008 = 0
  /\ demo_pool_accounts 10 10 = [1; 2; 1008; 1008; 5; 6; 7; 8; 9]
  /\ snd w2 = Ok tt
  /\ balance (fst w2) 1008 = 3000
  /\ mints (fst w2) !! 2 = Some (mkMint 500 (Some 8) 6).
Proof. vm_compute. repeat split. Qed.

(** ** The curve *)

Lemma ceil_div_mul n d : 0 < d -> n <= d * ceil_div n d.
Proof.
  intros Hd. unfold ceil_div.
  pose proof (Z.div_mod (n + d - 1) d ltac:(lia)).
  pose proof (Z.mod_pos_bound (n + d - 1) d Hd). lia.
Qed.

Lemma ceil_div_bounds n d k : 0 < d -> 0 <= n -> n <= d * k -> 0 <= ceil_div n d <= k.
Proof.
  intros Hd Hn Hk. unfold ceil_div. split.
  - apply Z.div_pos; lia.
  - apply Z.lt_succ_r. apply Z.div_lt_upper_bound; nia.
Qed.

Lemma effective_input_bounds f a : 0 <= f < 10000 -> 0 <= a -> 0 <= effective_input f a <= a.
Proof.
  intros Hf Ha. unfold effective_input. split.
  - apply Z.div_pos; nia.
  - apply Z.div_le_upper_bound; nia.
Qed.

Lemma curve_step rin rout e :
  0 <= rin -> 0 <= rout -> 0 <= e -> rin + e <> 0 ->
  0 <= rout - ceil_div (rin * rout) (rin + e) <= rout
  /\ rin * rout <= (rin + e) * (rout - (rout - ceil_div (rin * rout) (rin + e)))
  /\ (rin = rout -> rout - ceil_div (rin * rout) (rin + e) <= e).
Proof.
  intros Hi Ho He Hne.
  assert (Hd : 0 < rin + e) by lia.
  pose proof (ceil_div_mul (rin * rout) (rin + e) Hd) as H1.
  pose proof (ceil_div_bounds (rin * rout) (rin + e) rout Hd ltac:(nia) ltac:(nia)) as H2.
  set (q := ceil_div (rin * rout) (rin + e)) in *.
  split; [lia|]. split; [replace (rout - (rout - q)) with q by lia; lia|].
  intros <-. nia.
Qed.

Lemma cp_swap_facts x y l f p a min r :
  0 <= x -> 0 <= y -> 0 <= a -> 0 <= f < 10000 ->
  cp_swap (mkConstantProduct x y l f) p a min = Some r ->
  deposit r = a /\ min <= withdraw r
  /\ let '(r_in, r_out) := match p with PairX => (x, y) | PairY => (y, x) end in
     0 <= withdraw r <= r_out
     /\ r_in * r_out <= (r_in + effective_input f a) * (r_out - withdraw r)
     /\ (r_in = r_out -> withdraw r <= effective_input f a).
Proof.
  intros Hx Hy Ha Hf. pose proof (effective_input_bounds f a Hf Ha) as He.
  unfold cp_swap, cp_swap_unsafe.
  destruct p; cbn [cp_x cp_y cp_fee];
    (destruct (_ + effective_input f a =? 0) eqn:E; [discriminate|]);
    apply Z.eqb_neq in E; cbn [withdraw];
    (destruct (_ <? min) eqn:Em; [discriminate|]); intros H; injection H as <-;
    apply Z.ltb_ge in Em; cbn [deposit withdraw];
    (split; [reflexivity | split; [lia|]]); apply curve_step; lia.
Qed.

(** ** A swap's two transfers on the pool *)

Lemma shape_of w z t s0 :
  tokens w !! z = Some t ->
  (forall s, token_shape <$> tokens w !! z = Some s -> s = s0) -> token_shape t = s0.
Proof. intros Ht Hs. apply Hs. rewrite Ht. reflexivity. Qed.

(** The user pays [a] into reserve [vin]; the pool pays [o] out of
    reserve [vout]. *)
Lemma two_legs cfg signers pda w w1 w' uin vin vout uout user a o m_in m_out x1 x2 :
  (forall s, token_shape <$> tokens w !! vin = Some s -> s = (m_in, cfg)) ->
  (forall s, token_shape <$> tokens w !! vout = Some s -> s = (m_out, cfg)) ->
  (m_in = m_out -> vin = vout) ->
  (forall z, 0 <= balance w z) ->
  is_signer cfg signers = false ->
  0 <= a -> 0 <= o ->
  balance w vin * balance w vout <= (balance w vin + a) * (balance w vout - o) ->
  (vin = vout -> o <= a) ->
  token_transfer uin vin user a signers w = (w1, Ok x1) ->
  token_transfer vout uout cfg o (pda :: signers) w1 = (w', Ok x2) ->
  balance w vin * balance w vout <= balance w' vin * balance w' vout
  /\ (forall z, 0 <= balance w' z) /\ configs w' = configs w
  /\ (forall z, token_shape <$> tokens w' !! z = token_shape <$> tokens w !! z).
Proof.
  intros Hsin Hsout Hsame Hnn Hns Ha Ho Hprod Hoa T1 T2.
  apply transfer_ok in T1
    as (s1 & d1 & Hf1 & Hd1 & Hle1 & _ & Hown1 & Hsig1 & Hc1 & _ & _ & B1 & Sh1).
  apply transfer_ok in T2
    as (s2 & d2 & Hf2 & Hd2 & Hle2 & Hmint2 & _ & _ & Hc2 & _ & _ & B2 & Sh2).
  assert (Huser : user <> cfg) by (intros ->; congruence).
  assert (Hin : uin <> vin).
  { intros ->. pose proof (shape_of _ _ _ _ Hf1 Hsin) as E.
    unfold token_shape in E. injection E as _ E. congruence. }
  assert (Hout : uin <> vout).
  { intros ->. pose proof (shape_of _ _ _ _ Hf1 Hsout) as E.
    unfold token_shape in E. injection E as _ E. congruence. }
  assert (Hback : uout = vin -> vin = vout).
  { intros ->. apply Hsame.
    assert (E1 : token_shape d2 = (m_in, cfg)) by (apply Hsin; rewrite <- Sh1, Hd2; reflexivity).
    assert (E2 : token_shape s2 = (m_out, cfg)) by (apply Hsout; rewrite <- Sh1, Hf2; reflexivity).
    unfold token_shape in E1, E2. injection E1 as E1 _. injection E2 as E2 _. congruence. }
  apply balance_of in Hf1, Hf2.
  rewrite <- Hf1 in Hle1. rewrite <- Hf2, B1 in Hle2.
  assert (Hbal : forall z, 0 <= balance w' z).
  { intros z. rewrite B2, B1. pose proof (Hnn z).
    pose proof (Hnn uin). pose proof (Hnn vout).
    revert Hle1 Hle2. eqb_cases; intros; lia. }
  split; [|split; [exact Hbal | split; [congruence | intros z; rewrite Sh2, Sh1; reflexivity]]].
  rewrite !B2, !B1. pose proof (Hnn vin). pose proof (Hnn vout).
  destruct (Z.eqb_spec vin vout) as [<-|Hv].
  - specialize (Hoa eq_refl).
    revert Hle1 Hle2. eqb_cases; intros; try congruence; nia.
  - assert (uout <> vin) by (intros E; exact (Hv (Hback E))).
    revert Hle1 Hle2. eqb_cases; intros; try congruence; nia.
Qed.

Lemma swap_try_from_inv data accs a d :
  swap_try_from data accs = Ok (a, d) ->
  sa_config a = nth 5 accs 0 /\ sa_token_program a = nth 6 accs 0 /\ 0 < sw_amount d.
Proof.
  unfold swap_try_from, swap_accounts_try_from.
  do 8 (destruct accs as [|? accs]; try discriminate).
  unfold swap_data_try_from.
  destruct (negb (Nat.eqb (length data) 25)); [discriminate|].
  destruct (_ || _) eqn:E; [discriminate|].
  intros H. injection H as <- <-. simpl. split; [reflexivity | split; [reflexivity|]].
  simpl in E. apply orb_false_iff in E as [E _]. apply Z.eqb_neq in E.
  pose proof (le_bytes_to_Z_nonneg (slice 1 8 data)). lia.
Qed.

Lemma commit_ok (m : M unit) w w' x : commit m w = (w', Ok x) -> m w = (w', Ok tt).
Proof. unfold commit. destruct (m w) as [w1 [[]|e]]; congruence. Qed.

(** One successful Swap on a well-formed pool keeps it well formed and
    does not decrease the product of its reserves. *)
Lemma swap_step_product derive_pda find_ata cfg tp data accs signers w w' :
  pool_wf find_ata cfg tp w -> targets_pool cfg tp (data, accs, signers) ->
  swap_ix derive_pda find_ata data accs signers w = (w', Ok tt) ->
  pool_wf find_ata cfg tp w'
  /\ reserve_product find_ata cfg tp w <= reserve_product find_ata cfg tp w'.
Proof.
  intros (c & Hc & Hfee & Hsx & Hsy & Hnn) (H5 & H6 & Hns) H.
  unfold swap_ix in H. destruct (swap_try_from data accs) as [[a d]|e] eqn:Hdec;
    [|discriminate H].
  apply swap_try_from_inv in Hdec as (Hcfg & Htp & Hpos).
  rewrite H5 in Hcfg. rewrite H6 in Htp.
  unfold swap_process in H.
  peel H. apply get_inv in Hstep as [-> ->].
  peel H. apply guard_inv in Hstep as [-> _].
  peel H. apply config_load_inv in Hstep as [-> Hc'].
  rewrite Hcfg, Hc in Hc'. injection Hc' as <-.
  peel H. apply guard_inv in Hstep as [-> _].
  peel H. apply check_vaults_inv in Hstep as (-> & Hvx & Hvy).
  rewrite Hcfg, Htp in Hvx, Hvy.
  peel H. apply token_account_load_inv in Hstep as [-> Htx].
  peel H. apply token_account_load_inv in Hstep as [-> Hty].
  peel H. apply lift_option_inv in Hstep as [-> Hinit].
  unfold cp_init in Hinit. destruct (fee c >=? 10000) eqn:Ef; [discriminate|].
  injection Hinit as <-. rewrite Z.geb_leb in Ef. apply Z.leb_gt in Ef.
  cbv zeta in H.
  peel H. apply lift_option_inv in Hstep as [-> Hsw].
  peel H. apply guard_inv in Hstep as [-> _].
  apply balance_of in Htx, Hty.
  assert (Hrx := Hnn (sa_vault_x a)). assert (Hry := Hnn (sa_vault_y a)).
  rewrite Htx in Hrx. rewrite Hty in Hry.
  assert (Hpos' : 0 <= sw_amount d) by lia.
  pose proof (effective_input_bounds (fee c) (sw_amount d) ltac:(lia) Hpos') as He.
  assert (Hsame : mint_x c = mint_y c -> sa_vault_x a = sa_vault_y a) by congruence.
  assert (Hwf : forall w2, configs w2 = configs w ->
            (forall z, token_shape <$> tokens w2 !! z = token_shape <$> tokens w !! z) ->
            (forall z, 0 <= balance w2 z) -> pool_wf find_ata cfg tp w2).
  { intros w2 Hc2 Sh2 Hnn2. exists c. rewrite Hc2, !Sh2. auto. }
  unfold reserve_product. rewrite Hc. rewrite <- Hvx, <- Hvy. rewrite <- Hvx in Hsx. rewrite <- Hvy in Hsy.
  destruct (is_x d).
  - apply cp_swap_facts in Hsw as (Hdep & _ & Ho & Hk & Heq); [|lia..].
    rewrite Hdep in H.
    peel H. rewrite Hcfg in H.
    destruct (two_legs cfg signers (derive_pda (config_seeds c)) w w0 w'
                (sa_user_x_ata a) (sa_vault_x a) (sa_vault_y a) (sa_user_y_ata a) (sa_user a)
                (sw_amount d) (withdraw x4) (mint_x c) (mint_y c) x6 tt)
      as (Hprod & Hnn' & Hc' & Sh'); auto; try lia.
    + rewrite <- Htx, <- Hty in *. nia.
    + intros Ev. rewrite Ev in Htx. rewrite Htx in Hty. specialize (Heq Hty). lia.
    + rewrite Hc', Hc, <- Hvx, <- Hvy. split; [apply Hwf; auto | exact Hprod].
  - apply cp_swap_facts in Hsw as (Hdep & _ & Ho & Hk & Heq); [|lia..].
    rewrite Hdep in H.
    peel H. rewrite Hcfg in H.
    destruct (two_legs cfg signers (derive_pda (config_seeds c)) w w0 w'
                (sa_user_y_ata a) (sa_vault_y a) (sa_vault_x a) (sa_user_x_ata a) (sa_user a)
                (sw_amount d) (withdraw x4) (mint_y c) (mint_x c) x6 tt)
      as (Hprod & Hnn' & Hc' & Sh'); auto; try lia.
    + rewrite <- Htx, <- Hty in *. nia.
    + intros Ev. rewrite Ev in Hty. rewrite Htx in Hty. specialize (Heq (eq_sym Hty)). lia.
    + rewrite Hc', Hc, <- Hvx, <- Hvy. split; [apply Hwf; auto | nia].
Qed.

Lemma swap_trace_head derive_pda find_ata calls w ws :
  swap_trace derive_pda find_ata calls w = Some ws -> ws !! 0%nat = Some w.
Proof.
  destruct calls as [|[[data accs] signers] rest]; simpl.
  - intros H. injection H as <-. reflexivity.
  - destruct (commit _ w) as [w' [u|e]]; [|discriminate].
    destruct (swap_trace _ _ rest w'); simpl; [|discriminate].
    intros H. injection H as <-. reflexivity.
Qed.

(** ** C1: swaps never decrease the product of the reserves *)

(** C1: the curve's output [o] for an input [a] at fee [f] against
    reserves [r_in], [r_out] satisfies
    [(r_in + a * (10000 - f) / 10000) * (r_out - o) >= r_in * r_out]; and
    along any sequence of successful Swaps on a pool, the product
    [reserve_x.amount * reserve_y.amount] never decreases from one world
    to the next. *)
Theorem swap_product_never_decreases
    (derive_pda : list (list Z) -> Address) (find_ata : Address -> Address -> Address -> Address) :
  (forall x y l f p a min r,
     0 <= x -> 0 <= y -> 0 <= a -> 0 <= f < 10000 ->
     cp_swap (mkConstantProduct x y l f) p a min = Some r ->
     let '(r_in, r_out) := match p with PairX => (x, y) | PairY => (y, x) end in
     (r_in + effective_input f a) * (r_out - withdraw r) >= r_in * r_out)
  /\ (forall cfg tp calls w ws,
        pool_wf find_ata cfg tp w -> Forall (targets_pool cfg tp) calls ->
        swap_trace derive_pda find_ata calls w = Some ws ->
        forall i w1 w2, ws !! i = Some w1 -> ws !! S i = Some w2 ->
        reserve_product find_ata cfg tp w1 <= reserve_product find_ata cfg tp w2).
Proof.
  split.
  - intros x y l f p a min r Hx Hy Ha Hf Hs.
    apply cp_swap_facts in Hs as (_ & _ & Hs); auto.
    destruct p; lia.
  - intros cfg tp calls. induction calls as [|[[data accs] signers] rest IH];
      intros w ws Hwf Hcalls Htr i w1 w2 H1 H2.
    + simpl in Htr. injection Htr as <-. destruct i; discriminate.
    + inversion Hcalls as [|? ? Htarget Hrest]; subst.
      simpl in Htr.
      destruct (commit (swap_ix derive_pda find_ata data accs signers) w) as [w' [u|e]] eqn:Hc;
        [|discriminate].
      destruct (swap_trace derive_pda find_ata rest w') as [ws'|] eqn:Hrest'; [|discriminate].
      simpl in Htr. injection Htr as <-.
      apply commit_ok in Hc.
      destruct (swap_step_product _ _ _ _ _ _ _ _ _ Hwf Htarget Hc) as [Hwf' Hle].
      destruct i as [|i].
      * simpl in H1, H2. injection H1 as <-.
        rewrite (swap_trace_head _ _ _ _ _ Hrest') in H2. injection H2 as <-. exact Hle.
      * simpl in H1, H2. exact (IH w' ws' Hwf' Hrest Hrest' i w1 w2 H1 H2).
Qed.

Lemma balance_nonneg_of_forall w :
  map_Forall (fun _ t => 0 <= ta_amount t) (tokens w) -> forall z, 0 <= balance w z.
Proof.
  intros H z. unfold balance. destruct (tokens w !! z) eqn:E; [|lia].
  exact (H z _ E).
Qed.

Lemma demo_pool_wf : pool_wf demo_ata 8 9 (demo_world 100 10 11 30 1000 2000 500).
Proof.
  exists (demo_config 10 11 30). split; [reflexivity|]. split; [simpl; lia|].
  split; [intros s Hs; vm_compute in Hs; injection Hs as <-; reflexivity|].
  split; [intros s Hs; vm_compute in Hs; injection Hs as <-; reflexivity|].
  apply balance_nonneg_of_forall. simpl.
  repeat apply map_Forall_insert_2; simpl; try lia.
  intros i x Hx. rewrite lookup_empty in Hx. discriminate.
Qed.


(** ** Initialize, step by step *)

Lemma create_account_inv derive_pda n p sd signers w w1 x :
  create_account derive_pda n p sd signers w = (w1, Ok x) ->
  w1 = w /\ address_in_use w n = false /\ is_signer p signers = true
  /\ is_signer n (derive_pda sd :: signers) = true.
Proof.
  unfold create_account.
  destruct (address_in_use w n) eqn:E1; [intros H; inversion H|].
  destruct (is_signer p signers) eqn:E2; [|intros H; inversion H].
  destruct (is_signer n _) eqn:E3; intros H; inversion H; subst; auto.
Qed.

Lemma set_inner_ok c sd auth mx my f bump c' x :
  set_inner c sd auth mx my f bump = (c', Ok x) ->
  c' = mkConfig AmmState_Initialized sd auth mx my f bump /\ f < 10000.
Proof.
  unfold set_inner, set_state, set_fee. simpl.
  destruct (f >=? 10000) eqn:E; intros H; inversion H; subst.
  split; [reflexivity|]. rewrite Z.geb_leb in E. apply Z.leb_gt in E. lia.
Qed.

Lemma initialize_process_inv derive_pda acc d signers w w' x :
  initialize_process derive_pda acc d signers w = (w', Ok x) ->
  configs w !! ia_config acc = None
  /\ mints w !! ia_mint_lp acc = None
  /\ ia_mint_lp acc <> ia_config acc
  /\ is_signer (ia_initializer acc) signers = true
  /\ is_signer (ia_config acc) (derive_pda [CONFIG_TAG; Z_to_le_bytes 8 (init_seed d);
        init_mint_x d; init_mint_y d; [init_config_bump d]] :: signers) = true
  /\ init_fee d < 10000
  /\ configs w' = <[ia_config acc := initialized_config d]> (configs w)
  /\ mints w' = <[ia_mint_lp acc := mkMint 0 (Some (ia_config acc)) 6]> (mints w)
  /\ tokens w' = tokens w /\ clock w' = clock w.
Proof.
  unfold initialize_process. cbv zeta. intros H.
  peel H. apply create_account_inv in Hstep as (-> & Hfree & Hsig & Hpda).
  peel H. unfold create_config_account in Hstep. injection Hstep as <- _.
  peel H. unfold config_set_inner in Hstep. simpl in Hstep.
  rewrite lookup_insert_eq in Hstep.
  destruct (set_inner _ _ _ _ _ _ _) as [c' r] eqn:Es.
  injection Hstep as <- ->. apply set_inner_ok in Es as [-> Hf].
  peel H. apply create_account_inv in Hstep as (-> & Hfree2 & _ & _).
  unfold initialize_mint2 in H.
  destruct (bool_decide _) eqn:Hb; [discriminate|].
  injection H as <- _.
  unfold address_in_use in Hfree, Hfree2. simpl in Hfree2.
  apply orb_false_iff in Hfree as [Hfree Hm]. apply orb_false_iff in Hfree as [Hc _].
  apply orb_false_iff in Hfree2 as [Hfree2 Hm2]. apply orb_false_iff in Hfree2 as [Hc2 _].
  apply bool_decide_eq_false, eq_None_not_Some in Hc, Hm2.
  apply bool_decide_eq_false in Hc2.
  assert (Hne : ia_mint_lp acc <> ia_config acc).
  { intros Heq. apply Hc2. rewrite Heq, lookup_insert_eq. eexists. reflexivity. }
  simpl. rewrite insert_insert. unfold initialized_config.
  repeat split; auto.
  case_decide; congruence.
Qed.


(** ** Pool configurations across instructions *)

Lemma keeps_bind {A B} (m : M A) (k : A -> M B) :
  keeps_configs m -> (forall a, keeps_configs (k a)) -> keeps_configs (bind m k).
Proof.
  intros Hm Hk w. unfold bind. specialize (Hm w).
  destruct (m w) as [w1 [a|e]]; simpl in *; [rewrite Hk|]; exact Hm.
Qed.

Ltac keeps_tac :=
  repeat first
    [ apply keeps_bind; [| intros ? ]
    | solve [ auto with keeps ]
    | match goal with |- keeps_configs (match ?x with _ => _ end) => destruct x end
    | match goal with |- keeps_configs (if ?b then _ else _) => destruct b end ].

Lemma keeps_pool_ix derive_pda find_ata i :
  match i with IInitialize _ _ _ => True | _ => keeps_configs (exec_ix derive_pda find_ata i) end.
Proof.
  destruct i as [data accs s | data accs s | data accs s | data accs s]; simpl; [exact I|..].
  - unfold deposit_ix. destruct (deposit_try_from data accs) as [[a d]|e]; [|auto with keeps].
    unfold deposit_process. cbv zeta. keeps_tac.
  - unfold withdraw_ix. destruct (withdraw_try_from data accs) as [[a d]|e]; [|auto with keeps].
    unfold withdraw_process. cbv zeta. keeps_tac.
  - unfold swap_ix. destruct (swap_try_from data accs) as [[a d]|e]; [|auto with keeps].
    unfold swap_process. cbv zeta. keeps_tac.
Qed.

Lemma step_configs_cases derive_pda find_ata i w :
  configs (step derive_pda find_ata i w) = configs w
  \/ exists k d, configs w !! k = None
       /\ configs (step derive_pda find_ata i w) = <[k := initialized_config d]> (configs w).
Proof.
  unfold step, commit.
  destruct (exec_ix derive_pda find_ata i w) as [w' [[]|e]] eqn:E; simpl; [|left; reflexivity].
  destruct i as [data accs s | data accs s | data accs s | data accs s].
  - simpl in E. unfold initialize_ix in E.
    destruct (initialize_try_from data accs) as [[a d]|e]; [|discriminate].
    apply initialize_process_inv in E as (Hfree & _ & _ & _ & _ & _ & Hc & _).
    right. exists (ia_config a), d. auto.
  - left. pose proof (keeps_pool_ix derive_pda find_ata (IDeposit data accs s) w) as K.
    rewrite E in K. exact K.
  - left. pose proof (keeps_pool_ix derive_pda find_ata (IWithdraw data accs s) w) as K.
    rewrite E in K. exact K.
  - left. pose proof (keeps_pool_ix derive_pda find_ata (ISwap data accs s) w) as K.
    rewrite E in K. exact K.
Qed.


(** X3: if every stored pool is in state Initialized, it stays so after
    any instruction: no instruction of the program writes the states
    Disabled or WithdrawOnly. *)
Theorem pool_state_always_initialized derive_pda find_ata i w :
  map_Forall (fun _ c => state c = AmmState_Initialized) (configs w) ->
  map_Forall (fun _ c => state c = AmmState_Initialized) (configs (step derive_pda find_ata i w)).
Proof.
  intros Hw. destruct (step_configs_cases derive_pda find_ata i w) as [-> | (k & d & _ & ->)];
    [exact Hw|].
  apply map_Forall_insert_2; [reflexivity | exact Hw].
Qed.

Lemma bytes_of_forallb (l : list Z) :
  forallb (fun b => (0 <=? b) && (b <? 256)) l = true -> Forall is_byte l.
Proof.
  induction l as [|b r IH]; simpl; [constructor|].
  intros H. apply andb_true_iff in H as [Hb Hr]. apply andb_true_iff in Hb as [H1 H2].
  constructor; [unfold is_byte; apply Z.leb_le in H1; apply Z.ltb_lt in H2; lia | auto].
Qed.

(** ** Little-endian bytes *)

Lemma le_bytes_to_Z_bound bs : 0 <= le_bytes_to_Z bs < 2 ^ (8 * Z.of_nat (length bs)).
Proof.
  induction bs as [|b r IH]; simpl; [lia|].
  pose proof (Z.mod_pos_bound b 256).
  replace (8 * Z.of_nat (S (length r))) with (8 + 8 * Z.of_nat (length r)) by lia.
  rewrite Z.pow_add_r by lia. lia.
Qed.

Lemma Z_to_le_bytes_length n v : length (Z_to_le_bytes n v) = n.
Proof. revert v; induction n; intros v; simpl; [reflexivity|]. rewrite IHn. reflexivity. Qed.

Lemma Z_to_le_bytes_bytes n v : Forall is_byte (Z_to_le_bytes n v).
Proof.
  revert v; induction n; intros v; simpl; constructor; [|apply IHn].
  unfold is_byte. apply Z.mod_pos_bound. lia.
Qed.

(** Reading back [n] little-endian bytes gives the value modulo [2^(8n)]. *)
Lemma le_bytes_to_Z_of_Z n v : le_bytes_to_Z (Z_to_le_bytes n v) = v mod 2 ^ (8 * Z.of_nat n).
Proof.
  revert v; induction n as [|n IH]; intros v; simpl.
  - rewrite Z.mod_1_r. reflexivity.
  - rewrite IH, Z.mod_mod by lia.
    replace (8 * Z.of_nat (S n)) with (8 + 8 * Z.of_nat n) by lia.
    rewrite Z.pow_add_r by lia. change (2 ^ 8) with 256.
    rewrite Z.rem_mul_r by lia. lia.
Qed.

(** Writing back the value of a list of bytes gives the list. *)
Lemma Z_to_le_bytes_of_Z bs :
  Forall is_byte bs -> Z_to_le_bytes (length bs) (le_bytes_to_Z bs) = bs.
Proof.
  induction 1 as [|b r Hb Hr IH]; simpl; [reflexivity|].
  unfold is_byte in Hb. rewrite Z.mod_small with (a := b) by lia.
  pose proof (le_bytes_to_Z_nonneg r).
  replace ((b + 256 * le_bytes_to_Z r) mod 256) with b.
  2:{ rewrite Z.mul_comm, Z.mod_add, Z.mod_small; lia. }
  replace ((b + 256 * le_bytes_to_Z r) / 256) with (le_bytes_to_Z r).
  2:{ rewrite Z.mul_comm, Z.div_add, Z.div_small; lia. }
  rewrite IH. reflexivity.
Qed.

(** ** The pool signer seeds *)

Lemma slice_bytes off len bs : Forall is_byte bs -> Forall is_byte (slice off len bs).
Proof. intros H. unfold slice. apply Forall_take, Forall_drop, H. Qed.

Lemma slice_length off len bs : (off + len <= length bs)%nat -> length (slice off len bs) = len.
Proof. intros H. unfold slice. rewrite length_firstn, length_skipn. lia. Qed.

Lemma slice_roundtrip off len bs :
  (off + len <= length bs)%nat -> Forall is_byte bs ->
  Z_to_le_bytes len (le_bytes_to_Z (slice off len bs)) = slice off len bs.
Proof.
  intros Hl Hb. rewrite <- (slice_length off len bs Hl) at 1.
  apply Z_to_le_bytes_of_Z, slice_bytes, Hb.
Qed.

Lemma initialize_raw data d :
  initialize_data_try_from data = Ok d ->
  exists raw, d = read_initialize_data raw /\ length raw = 108%nat
    /\ (Forall is_byte data -> Forall is_byte raw).
Proof.
  unfold initialize_data_try_from.
  destruct (Nat.eqb_spec (length data) INITIALIZE_DATA_LEN_WITH_AUTHORITY) as [E|_].
  - intros H. injection H as <-. exists data. repeat split; auto.
  - destruct (Nat.eqb_spec (length data) INITIALIZE_DATA_LEN) as [E|_]; [|discriminate].
    intros H. injection H as <-. exists (data ++ repeat 0 32). repeat split.
    + rewrite length_app, repeat_length, E. reflexivity.
    + intros Hb. apply Forall_app; split; [exact Hb|].
      apply Forall_forall. intros z Hz. apply list_elem_of_In, repeat_spec in Hz. subst. unfold is_byte. lia.
Qed.

Lemma initialize_try_from_data data accs a d :
  initialize_try_from data accs = Ok (a, d) ->
  initialize_accounts_try_from accs = Ok a /\ initialize_data_try_from data = Ok d.
Proof.
  unfold initialize_try_from.
  destruct (initialize_accounts_try_from accs); [|discriminate].
  destruct (initialize_data_try_from data); [|discriminate].
  intros H. injection H as -> ->. auto.
Qed.

(** X4: after a successful Initialize whose payload holds bytes, the
    signer seeds that Deposit, Withdraw and Swap rebuild from the stored
    configuration ([seed().to_le_bytes()], [mint_x], [mint_y],
    [config_bump]) are exactly the seeds Initialize created the pool
    address with; when the pool address is not a transaction signer, they
    derive the pool address itself. *)
Theorem pool_signer_seeds_match derive_pda data accs signers w w' a d :
  initialize_try_from data accs = Ok (a, d) ->
  Forall is_byte data ->
  initialize_ix derive_pda data accs signers w = (w', Ok tt) ->
  configs w' !! ia_config a = Some (initialized_config d)
  /\ config_seeds (initialized_config d)
     = [CONFIG_TAG; Z_to_le_bytes 8 (init_seed d); init_mint_x d; init_mint_y d; [init_config_bump d]]
  /\ (is_signer (ia_config a) signers = false ->
      derive_pda (config_seeds (initialized_config d)) = ia_config a).
Proof.
  intros Hdec Hb H.
  unfold initialize_ix in H. rewrite Hdec in H.
  apply initialize_process_inv in H as (_ & _ & _ & _ & Hpda & _ & Hc & _).
  apply initialize_try_from_data in Hdec as [_ Hd].
  apply initialize_raw in Hd as (raw & -> & Hlen & Hraw). specialize (Hraw Hb).
  assert (Hseeds : config_seeds (initialized_config (read_initialize_data raw))
     = [CONFIG_TAG; Z_to_le_bytes 8 (init_seed (read_initialize_data raw));
        init_mint_x (read_initialize_data raw); init_mint_y (read_initialize_data raw);
        [init_config_bump (read_initialize_data raw)]]).
  { unfold config_seeds, initialized_config, address_bytes, address_of_bytes, read_initialize_data.
    cbn [seed mint_x mint_y config_bump init_seed init_mint_x init_mint_y init_config_bump].
    rewrite !slice_roundtrip by (assumption || lia). reflexivity. }
  split; [rewrite Hc; apply lookup_insert_eq|]. split; [exact Hseeds|].
  intros Hns. rewrite Hseeds.
  unfold is_signer in Hns, Hpda. cbn [existsb] in Hpda. rewrite Hns, orb_false_r in Hpda.
  apply Z.eqb_eq in Hpda. symmetry. exact Hpda.
Qed.

(** ** The pool authority *)

Lemma le_bytes_to_Z_zero bs :
  Forall is_byte bs -> (le_bytes_to_Z bs = 0 <-> Forall (fun b => b = 0) bs).
Proof.
  induction 1 as [|b r Hb Hr IH]; simpl.
  - split; constructor.
  - unfold is_byte in Hb. rewrite Z.mod_small by lia.
    pose proof (le_bytes_to_Z_nonneg r).
    rewrite Forall_cons. rewrite <- IH. lia.
Qed.

Lemma split32 (bs : list Z) :
  length bs = 32%nat -> bs = slice 0 8 bs ++ slice 8 8 bs ++ slice 16 8 bs ++ slice 24 8 bs.
Proof.
  intros H. do 32 (destruct bs as [|? bs]; [discriminate H|]).
  destruct bs; [reflexivity|discriminate H].
Qed.

Lemma all_zero_repeat (l : list Z) : Forall (fun b => b = 0) l <-> l = repeat 0 (length l).
Proof.
  induction l as [|b r IH]; simpl.
  - split; [reflexivity|constructor].
  - rewrite Forall_cons, IH. split; [intros [-> <-]; reflexivity|].
    intros H. injection H as -> <-. auto.
Qed.

Lemma has_authority_none_iff c :
  length (authority c) = 32%nat -> Forall is_byte (authority c) ->
  (has_authority c = None <-> authority c = repeat 0 32)
  /\ (authority c <> repeat 0 32 -> has_authority c = Some (authority c)).
Proof.
  intros Hl Hb.
  assert (Hz : has_authority c = None <-> Forall (fun b => b = 0)
            (slice 0 8 (authority c) ++ slice 8 8 (authority c)
             ++ slice 16 8 (authority c) ++ slice 24 8 (authority c))).
  { unfold has_authority. cbn [map existsb Nat.mul Nat.add].
    rewrite !Forall_app, <- !le_bytes_to_Z_zero by (apply slice_bytes; exact Hb).
    repeat match goal with
           | |- context [le_bytes_to_Z ?s =? 0] => destruct (Z.eqb_spec (le_bytes_to_Z s) 0)
           end; simpl; intuition congruence. }
  rewrite <- split32 in Hz by exact Hl.
  rewrite all_zero_repeat, Hl in Hz.
  split; [exact Hz|].
  intros Hne. unfold has_authority in *.
  destruct (existsb _ _); [reflexivity|]. tauto.
Qed.

(** X5: [Config::has_authority] on a 32-byte authority is [None] exactly
    when all 32 bytes are zero, and otherwise returns the authority. *)
Theorem has_authority_none_iff_zero c :
  length (authority c) = 32%nat -> Forall is_byte (authority c) ->
  (has_authority c = None <-> authority c = repeat 0 32)
  /\ (authority c <> repeat 0 32 -> has_authority c = Some (authority c)).
Proof. apply has_authority_none_iff. Qed.

Lemma has_authority_zero c : authority c = repeat 0 32 -> has_authority c = None.
Proof. unfold has_authority. intros ->. reflexivity. Qed.

(** X6: a pool created from a 76-byte Initialize payload has no
    authority ([has_authority] is [None]); one created from a 108-byte
    payload has the payload's last 32 bytes as authority, [None] exactly
    when they are all zero. *)
Theorem initialize_authority_recorded derive_pda data accs signers w w' a d :
  initialize_try_from data accs = Ok (a, d) ->
  Forall is_byte data ->
  initialize_ix derive_pda data accs signers w = (w', Ok tt) ->
  exists c, configs w' !! ia_config a = Some c
    /\ (length data = 76%nat -> has_authority c = None)
    /\ (length data = 108%nat ->
        (has_authority c = None <-> slice 76 32 data = repeat 0 32)
        /\ (slice 76 32 data <> repeat 0 32 -> has_authority c = Some (slice 76 32 data))).
Proof.
  intros Hdec Hb H.
  unfold initialize_ix in H. rewrite Hdec in H.
  apply initialize_process_inv in H as (_ & _ & _ & _ & _ & _ & Hc & _).
  exists (initialized_config d). split; [rewrite Hc; apply lookup_insert_eq|].
  apply initialize_try_from_data in Hdec as [_ Hd].
  unfold initialize_data_try_from in Hd.
  destruct (Nat.eqb_spec (length data) INITIALIZE_DATA_LEN_WITH_AUTHORITY) as [E|E].
  - injection Hd as <-. split; [intros E'; rewrite E in E'; discriminate|].
    intros _. apply has_authority_none_iff; simpl.
    + apply slice_length. rewrite E. reflexivity.
    + apply slice_bytes, Hb.
  - destruct (Nat.eqb_spec (length data) INITIALIZE_DATA_LEN) as [E2|E2]; [|discriminate].
    assert (Hs : slice 76 32 (data ++ repeat 0 32) = repeat 0 32).
    { pose proof (slice_app_r data (repeat 0 32)) as Hs'.
      rewrite E2, repeat_length in Hs'. exact Hs'. }
    injection Hd as <-. split; [|intros E'; rewrite E2 in E'; discriminate].
    intros _. apply has_authority_zero. exact Hs.
Qed.

(** ** Effects of successful Deposit, Withdraw and Swap *)

(** X7: a successful Deposit was not expired, was signed by the user, ran
    on an Initialized pool whose vaults are the pool's associated token
    accounts, and took amounts [x <= max_x], [y <= max_y] (those of step
    6); it moves exactly [x] from the user's X account to vault X and [y]
    from the user's Y account to vault Y, mints exactly [amount] shares to
    the user's LP account, and leaves the pool configurations unchanged. *)
Theorem deposit_effect derive_pda find_ata data accs signers w w' a d :
  deposit_try_from data accs = Ok (a, d) ->
  deposit_ix derive_pda find_ata data accs signers w = (w', Ok tt) ->
  clock w < dep_expiration d
  /\ is_signer (pa_user a) signers = true
  /\ exists c m tx ty x y,
       configs w !! pa_config a = Some c /\ state c = AmmState_Initialized
       /\ pa_vault_x a = find_ata (pa_config a) (pa_token_program a) (mint_x c)
       /\ pa_vault_y a = find_ata (pa_config a) (pa_token_program a) (mint_y c)
       /\ mints w !! pa_mint_lp a = Some m
       /\ tokens w !! pa_vault_x a = Some tx /\ tokens w !! pa_vault_y a = Some ty
       /\ deposit_amounts m tx ty d = Some (x, y)
       /\ x <= dep_max_x d /\ y <= dep_max_y d
       /\ mints w' !! pa_mint_lp a = Some (mkMint (supply m + dep_amount d) (mint_authority m) (decimals m))
       /\ configs w' = configs w
       /\ (forall z, balance w' z = balance w z
             - (if z =? pa_user_x_ata a then x else 0) + (if z =? pa_vault_x a then x else 0)
             - (if z =? pa_user_y_ata a then y else 0) + (if z =? pa_vault_y a then y else 0)
             + (if z =? pa_user_lp_ata a then dep_amount d else 0)).
Proof.
  intros Hdec H.
  unfold deposit_ix in H. rewrite Hdec in H. unfold deposit_process in H.
  peel H. apply get_inv in Hstep as [-> ->].
  peel H. apply guard_inv in Hstep as [-> Hexp].
  peel H. apply config_load_inv in Hstep as [-> Hc].
  peel H. apply guard_inv in Hstep as [-> Hst].
  peel H. apply check_vaults_inv in Hstep as (-> & Hvx & Hvy).
  peel H. apply mint_load_inv in Hstep as [-> Hm].
  peel H. apply token_account_load_inv in Hstep as [-> Htx].
  peel H. apply token_account_load_inv in Hstep as [-> Hty].
  peel H. apply lift_option_inv in Hstep as [-> Hxy].
  match type of Hxy with _ = Some ?p => destruct p as [dx dy] end. cbv beta iota in H.
  peel H. apply guard_inv in Hstep as [-> Hmax].
  peel H. apply transfer_ok in Hstep
    as (s1 & d1 & _ & _ & _ & _ & _ & Hsig & C1 & Hmints1 & _ & B1 & _).
  peel H. apply transfer_ok in Hstep
    as (s2 & d2 & _ & _ & _ & _ & _ & _ & C2 & Hmints2 & _ & B2 & _).
  apply mint_to_ok in H as (m3 & Hm3 & C3 & _ & B3 & _ & Hmint).
  rewrite Hmints2, Hmints1, Hm in Hm3. injection Hm3 as <-.
  rewrite negb_true_iff, Z.geb_leb, Z.leb_gt in Hexp.
  apply Z.eqb_eq in Hst. apply andb_true_iff in Hmax as [Hmx Hmy]. apply Z.leb_le in Hmx, Hmy.
  split; [exact Hexp|]. split; [exact Hsig|].
  do 4 eexists. exists dx, dy. repeat split; eauto.
  - rewrite C3, C2, C1. reflexivity.
  - intros z. rewrite B3, B2, B1. lia.
Qed.

(** X8: a successful Withdraw was not expired, was signed by the user, ran
    on a pool not Disabled whose vaults are the pool's associated token
    accounts, and paid amounts [x >= min_x], [y >= min_y] (those of step
    6); it moves exactly [x] from vault X to the user's X account and [y]
    from vault Y to the user's Y account, burns exactly [amount] shares
    from the user's LP account, and leaves the pool configurations
    unchanged. *)
Theorem withdraw_effect derive_pda find_ata data accs signers w w' a d :
  withdraw_try_from data accs = Ok (a, d) ->
  withdraw_ix derive_pda find_ata data accs signers w = (w', Ok tt) ->
  clock w < wd_expiration d
  /\ is_signer (pa_user a) signers = true
  /\ exists c m tx ty x y,
       configs w !! pa_config a = Some c /\ state c <> AmmState_Disabled
       /\ pa_vault_x a = find_ata (pa_config a) (pa_token_program a) (mint_x c)
       /\ pa_vault_y a = find_ata (pa_config a) (pa_token_program a) (mint_y c)
       /\ mints w !! pa_mint_lp a = Some m
       /\ tokens w !! pa_vault_x a = Some tx /\ tokens w !! pa_vault_y a = Some ty
       /\ withdraw_amounts m tx ty d = Some (x, y)
       /\ wd_min_x d <= x /\ wd_min_y d <= y
       /\ mints w' !! pa_mint_lp a = Some (mkMint (supply m - wd_amount d) (mint_authority m) (decimals m))
       /\ configs w' = configs w
       /\ (forall z, balance w' z = balance w z
             - (if z =? pa_vault_x a then x else 0) + (if z =? pa_user_x_ata a then x else 0)
             - (if z =? pa_vault_y a then y else 0) + (if z =? pa_user_y_ata a then y else 0)
             - (if z =? pa_user_lp_ata a then wd_amount d else 0)).
Proof.
  intros Hdec H.
  unfold withdraw_ix in H. rewrite Hdec in H. unfold withdraw_process in H.
  peel H. apply get_inv in Hstep as [-> ->].
  peel H. apply guard_inv in Hstep as [-> Hexp].
  peel H. apply config_load_inv in Hstep as [-> Hc].
  peel H. apply guard_inv in Hstep as [-> Hst].
  peel H. apply check_vaults_inv in Hstep as (-> & Hvx & Hvy).
  peel H. apply mint_load_inv in Hstep as [-> Hm].
  peel H. apply token_account_load_inv in Hstep as [-> Htx].
  peel H. apply token_account_load_inv in Hstep as [-> Hty].
  peel H. apply lift_option_inv in Hstep as [-> Hxy].
  match type of Hxy with _ = Some ?p => destruct p as [dx dy] end. cbv beta iota zeta in H.
  peel H. apply guard_inv in Hstep as [-> Hmin].
  peel H. apply transfer_ok in Hstep
    as (s1 & d1 & _ & _ & _ & _ & _ & _ & C1 & Hmints1 & _ & B1 & _).
  peel H. apply transfer_ok in Hstep
    as (s2 & d2 & _ & _ & _ & _ & _ & _ & C2 & Hmints2 & _ & B2 & _).
  apply burn_ok in H as (s3 & m3 & _ & Hm3 & _ & _ & Hsig & C3 & _ & B3 & _ & Hmint).
  rewrite Hmints2, Hmints1, Hm in Hm3. injection Hm3 as <-.
  rewrite negb_true_iff, Z.geb_leb, Z.leb_gt in Hexp.
  apply negb_true_iff, Z.eqb_neq in Hst.
  apply andb_true_iff in Hmin as [Hmx Hmy]. rewrite Z.geb_leb, Z.leb_le in Hmx, Hmy.
  split; [exact Hexp|]. split; [exact Hsig|].
  do 4 eexists. exists dx, dy. repeat split; eauto.
  - rewrite C3, C2, C1. reflexivity.
  - intros z. rewrite B3, B2, B1. lia.
Qed.

(** X9: a successful Swap was not expired, was signed by the user, ran on
    an Initialized pool whose vaults are the pool's associated token
    accounts, and its curve result has nonzero deposit and withdraw
    amounts; it moves exactly the deposit amount from the user's input
    account into the input-side vault and exactly the withdraw amount from
    the other vault to the user's output account (X in, Y out when [is_x]),
    and changes no configuration and no mint. *)
Theorem swap_effect derive_pda find_ata data accs signers w w' a d :
  swap_try_from data accs = Ok (a, d) ->
  swap_ix derive_pda find_ata data accs signers w = (w', Ok tt) ->
  clock w < sw_expiration d
  /\ is_signer (sa_user a) signers = true
  /\ exists c tx ty k r,
       configs w !! sa_config a = Some c /\ state c = AmmState_Initialized
       /\ sa_vault_x a = find_ata (sa_config a) (sa_token_program a) (mint_x c)
       /\ sa_vault_y a = find_ata (sa_config a) (sa_token_program a) (mint_y c)
       /\ tokens w !! sa_vault_x a = Some tx /\ tokens w !! sa_vault_y a = Some ty
       /\ cp_init (ta_amount tx) (ta_amount ty) (ta_amount tx) (fee c) = Some k
       /\ cp_swap k (if is_x d then PairX else PairY) (sw_amount d) (sw_min d) = Some r
       /\ deposit r <> 0 /\ withdraw r <> 0
       /\ configs w' = configs w /\ mints w' = mints w
       /\ (is_x d = true -> forall z, balance w' z = balance w z
             - (if z =? sa_user_x_ata a then deposit r else 0) + (if z =? sa_vault_x a then deposit r else 0)
             - (if z =? sa_vault_y a then withdraw r else 0) + (if z =? sa_user_y_ata a then withdraw r else 0))
       /\ (is_x d = false -> forall z, balance w' z = balance w z
             - (if z =? sa_user_y_ata a then deposit r else 0) + (if z =? sa_vault_y a then deposit r else 0)
             - (if z =? sa_vault_x a then withdraw r else 0) + (if z =? sa_user_x_ata a then withdraw r else 0)).
Proof.
  intros Hdec H.
  unfold swap_ix in H. rewrite Hdec in H. unfold swap_process in H.
  peel H. apply get_inv in Hstep as [-> ->].
  peel H. apply guard_inv in Hstep as [-> Hexp].
  peel H. apply config_load_inv in Hstep as [-> Hc].
  peel H. apply guard_inv in Hstep as [-> Hst].
  peel H. apply check_vaults_inv in Hstep as (-> & Hvx & Hvy).
  peel H. apply token_account_load_inv in Hstep as [-> Htx].
  peel H. apply token_account_load_inv in Hstep as [-> Hty].
  peel H. apply lift_option_inv in Hstep as [-> Hinit].
  cbv zeta in H.
  peel H. apply lift_option_inv in Hstep as [-> Hsw].
  peel H. apply guard_inv in Hstep as [-> Hnz].
  apply negb_true_iff, orb_false_iff in Hnz as [Hd0 Hw0]. apply Z.eqb_neq in Hd0, Hw0.
  rewrite negb_true_iff, Z.geb_leb, Z.leb_gt in Hexp. apply Z.eqb_eq in Hst.
  destruct (is_x d) eqn:Hdir.
  - peel H. apply transfer_ok in Hstep
      as (s1 & d1 & _ & _ & _ & _ & _ & Hsig & C1 & M1 & _ & B1 & _).
    apply transfer_ok in H as (s2 & d2 & _ & _ & _ & _ & _ & _ & C2 & M2 & _ & B2 & _).
    split; [exact Hexp|]. split; [exact Hsig|].
    do 5 eexists. repeat split; eauto; try congruence.
    intros _ z. rewrite B2, B1. lia.
  - peel H. apply transfer_ok in Hstep
      as (s1 & d1 & _ & _ & _ & _ & _ & Hsig & C1 & M1 & _ & B1 & _).
    apply transfer_ok in H as (s2 & d2 & _ & _ & _ & _ & _ & _ & C2 & M2 & _ & B2 & _).
    split; [exact Hexp|]. split; [exact Hsig|].
    do 5 eexists. repeat split; eauto; try congruence.
    intros _ z. rewrite B2, B1. lia.
Qed.

(** ** Payload and account-list decoders *)

Lemma u64_le_length v : length (u64_le v) = 8%nat.
Proof. apply Z_to_le_bytes_length. Qed.

Ltac destruct8 l :=
  do 8 (destruct l as [|? l]; [discriminate|]); destruct l; [|discriminate].

Lemma four_chunks (l1 l2 l3 l4 : list Z) :
  length l1 = 8%nat -> length l2 = 8%nat -> length l3 = 8%nat -> length l4 = 8%nat ->
  slice 0 8 (l1 ++ l2 ++ l3 ++ l4) = l1 /\ slice 8 8 (l1 ++ l2 ++ l3 ++ l4) = l2
  /\ slice 16 8 (l1 ++ l2 ++ l3 ++ l4) = l3 /\ slice 24 8 (l1 ++ l2 ++ l3 ++ l4) = l4.
Proof.
  intros H1 H2 H3 H4.
  destruct8 l1. destruct8 l2. destruct8 l3. destruct8 l4.
  repeat split.
Qed.

Lemma byte_and_three_chunks (b : Z) (l2 l3 l4 : list Z) :
  length l2 = 8%nat -> length l3 = 8%nat -> length l4 = 8%nat ->
  byte_at 0 ([b] ++ l2 ++ l3 ++ l4) = b mod 256
  /\ slice 1 8 ([b] ++ l2 ++ l3 ++ l4) = l2
  /\ slice 9 8 ([b] ++ l2 ++ l3 ++ l4) = l3 /\ slice 17 8 ([b] ++ l2 ++ l3 ++ l4) = l4.
Proof.
  intros H2 H3 H4.
  destruct8 l2. destruct8 l3. destruct8 l4.
  repeat split.
Qed.

Lemma u64_roundtrip v : 0 <= v <= u64_max -> le_bytes_to_Z (u64_le v) = v.
Proof.
  intros Hv. unfold u64_le, u64_max in *. rewrite le_bytes_to_Z_of_Z.
  apply Z.mod_small. simpl. lia.
Qed.

Lemma i64_roundtrip v : - 2 ^ 63 <= v < 2 ^ 63 -> i64_of_le (u64_le v) = v.
Proof.
  intros Hv. unfold i64_of_le, u64_le. rewrite le_bytes_to_Z_of_Z.
  change (2 ^ (8 * Z.of_nat 8)) with (2 ^ 64).
  destruct (Z_lt_le_dec v 0) as [Hneg|Hpos].
  - rewrite Z.mod_eq by lia.
    replace (v / 2 ^ 64) with (-1).
    2:{ apply Z.div_unique with (v + 2 ^ 64); lia. }
    destruct (Z.ltb_spec (v - 2 ^ 64 * -1) (2 ^ 63)); lia.
  - rewrite Z.mod_small by lia.
    destruct (Z.ltb_spec v (2 ^ 63)); lia.
Qed.

(** X10: the payload decoders read back what the little-endian layout
    writes: u64 fields in [0, 2^64), the i64 expiration in
    [-2^63, 2^63) (written as its 8 two's-complement bytes) and the Swap
    direction byte come out unchanged. *)
Theorem payload_decoders_roundtrip b amt x y e :
  0 <= amt <= u64_max -> 0 <= x <= u64_max -> 0 <= y <= u64_max ->
  - 2 ^ 63 <= e < 2 ^ 63 -> 0 <= b < 256 ->
  deposit_data_try_from (u64_le amt ++ u64_le x ++ u64_le y ++ u64_le e)
    = Ok (mkDepositInstructionData amt x y e)
  /\ withdraw_data_try_from (u64_le amt ++ u64_le x ++ u64_le y ++ u64_le e)
    = Ok (mkWithdrawInstructionData amt x y e)
  /\ swap_data_try_from ([b] ++ u64_le amt ++ u64_le x ++ u64_le e)
    = Ok (mkSwapInstructionData b amt x e).
Proof.
  intros Ha Hx Hy He Hb.
  destruct (four_chunks (u64_le amt) (u64_le x) (u64_le y) (u64_le e))
    as (S1 & S2 & S3 & S4); try apply u64_le_length.
  destruct (byte_and_three_chunks b (u64_le amt) (u64_le x) (u64_le e))
    as (B0 & T1 & T2 & T3); try apply u64_le_length.
  unfold deposit_data_try_from, withdraw_data_try_from, swap_data_try_from.
  rewrite !length_app, !u64_le_length. simpl length. cbv [Nat.eqb negb].
  rewrite S1, S2, S3, S4, B0, T1, T2, T3, !u64_roundtrip, !i64_roundtrip by assumption.
  rewrite Z.mod_small by lia. repeat split.
Qed.

Lemma pool_accounts_other_length accs :
  length accs <> 9%nat -> pool_accounts_try_from accs = Err NotEnoughAccountKeys.
Proof.
  intros H. do 9 (destruct accs as [|? accs]; [reflexivity|]).
  destruct accs; [simpl in H; lia | reflexivity].
Qed.

(** X11: each instruction decoder refuses with [NotEnoughAccountKeys]
    any account list whose length is not exactly 5 (Initialize), 9
    (Deposit, Withdraw) or 7 (Swap), too long as well as too short, and
    does so before reading the payload. *)
Theorem account_lists_exact_length data accs :
  (length accs <> 5%nat -> initialize_try_from data accs = Err NotEnoughAccountKeys)
  /\ (length accs <> 9%nat -> deposit_try_from data accs = Err NotEnoughAccountKeys
                             /\ withdraw_try_from data accs = Err NotEnoughAccountKeys)
  /\ (length accs <> 7%nat -> swap_try_from data accs = Err NotEnoughAccountKeys).
Proof.
  split; [|split].
  - intros H. unfold initialize_try_from, initialize_accounts_try_from.
    do 5 (destruct accs as [|? accs]; [reflexivity|]).
    destruct accs; [simpl in H; lia | reflexivity].
  - intros H. unfold deposit_try_from, withdraw_try_from.
    rewrite pool_accounts_other_length by exact H. auto.
  - intros H. unfold swap_try_from, swap_accounts_try_from.
    do 7 (destruct accs as [|? accs]; [reflexivity|]).
    destruct accs; [simpl in H; lia | reflexivity].
Qed.

(** ** Witnesses *)

(** The hypotheses of C9 hold for a 32-byte payload with amount 500 and
    both floors at zero, which then decodes. *)
Lemma withdraw_decoder_no_min_floor_witness :
  let data := u64_le 500 ++ u64_le 0 ++ u64_le 0 ++ u64_le 200 in
  length (demo_pool_accounts 10 11) = 9%nat /\ length data = 32%nat
  /\ 0 < le_bytes_to_Z (slice 0 8 data)
  /\ exists a d, withdraw_try_from data (demo_pool_accounts 10 11) = Ok (a, d)
                 /\ wd_min_x d = 0 /\ wd_min_y d = 0.
Proof.
  intros data.
  assert (H1 : length (demo_pool_accounts 10 11) = 9%nat) by reflexivity.
  assert (H2 : length data = 32%nat) by reflexivity.
  assert (H3 : 0 < le_bytes_to_Z (slice 0 8 data)) by (vm_compute; reflexivity).
  split; [exact H1|]. split; [exact H2|]. split; [exact H3|].
  destruct (withdraw_decoder_no_min_floor data (demo_pool_accounts 10 11) H1 H2 H3)
    as [(a & d & Hd & Hx & Hy & _) _].
  exists a, d. split; [exact Hd|]. split; [rewrite Hx | rewrite Hy]; vm_compute; reflexivity.
Defined.

Lemma full_withdraw_empties_reserves_witness :
  let w := demo_world 100 10 11 30 1000 2000 500 in
  let data := u64_le 500 ++ u64_le 0 ++ u64_le 0 ++ u64_le 200 in
  let accs := demo_pool_accounts 10 11 in
  let w' := fst (withdraw_ix demo_pda demo_ata data accs [1] w) in
  withdraw_ix demo_pda demo_ata data accs [1] w = (w', Ok tt)
  /\ balance w' 1008 = 0 /\ balance w' 1108 = 0.
Proof.
  intros w data accs w'.
  assert (Hrun : withdraw_ix demo_pda demo_ata data accs [1] w = (w', Ok tt))
    by (vm_compute; reflexivity).
  split; [exact Hrun|].
  refine (proj2 (full_withdraw_empties_reserves demo_pda demo_ata data accs [1] w w'
            (mkPoolAccounts 1 2 1008 1108 5 6 7 8 9) (mkWithdrawInstructionData 500 0 0 200)
            (mkMint 500 (Some 8) 6) (mkTokenAccount 10 8 1000) (mkTokenAccount 11 8 2000)
            _ _ _ _ _ _ _) _ _ _ _ Hrun);
    first [vm_compute; reflexivity | simpl; lia].
Defined.

Lemma first_deposit_exact_witness :
  let w := demo_world 100 10 11 30 0 0 0 in
  let data := u64_le 500 ++ u64_le 1000 ++ u64_le 2000 ++ u64_le 200 in
  let accs := demo_pool_accounts 10 11 in
  let w' := fst (deposit_ix demo_pda demo_ata data accs [1] w) in
  deposit_ix demo_pda demo_ata data accs [1] w = (w', Ok tt)
  /\ mints w' !! 2 = Some (mkMint 500 (Some 8) 6)
  /\ balance w' 1008 = 1000 /\ balance w' 1108 = 2000.
Proof.
  intros w data accs w'.
  assert (Hrun : deposit_ix demo_pda demo_ata data accs [1] w = (w', Ok tt))
    by (vm_compute; reflexivity).
  destruct (proj2 (first_deposit_exact demo_pda demo_ata data accs [1] w w'
            (mkPoolAccounts 1 2 1008 1108 5 6 7 8 9) (mkDepositInstructionData 500 1000 2000 200)
            (mkMint 0 (Some 8) 6) (mkTokenAccount 10 8 0) (mkTokenAccount 11 8 0)
            eq_refl eq_refl eq_refl eq_refl eq_refl eq_refl eq_refl) Hrun) as [Hs Hb].
  split; [exact Hrun|]. split; [exact Hs|].
  apply Hb; simpl; lia.
Defined.

Lemma swap_product_never_decreases_witness :
  let w := demo_world 100 10 11 30 1000 2000 500 in
  let calls := [([1] ++ u64_le 100 ++ u64_le 1 ++ u64_le 200, demo_swap_accounts 10 11, [1]);
                ([0] ++ u64_le 300 ++ u64_le 1 ++ u64_le 200, demo_swap_accounts 10 11, [1])] in
  let ws := swap_trace demo_pda demo_ata calls w in
  exists w0 w1 w2, ws = Some [w0; w1; w2]
    /\ reserve_product demo_ata 8 9 w0 <= reserve_product demo_ata 8 9 w1
    /\ reserve_product demo_ata 8 9 w1 <= reserve_product demo_ata 8 9 w2.
Proof.
  intros w calls ws.
  destruct (swap_trace demo_pda demo_ata calls w) as [l|] eqn:Htr; [|vm_compute in Htr; discriminate].
  assert (Hcalls : Forall (targets_pool 8 9) calls) by (repeat constructor).
  pose proof (proj2 (swap_product_never_decreases demo_pda demo_ata) 8 9 calls w l
                demo_pool_wf Hcalls Htr) as Hmono.
  assert (Hl : length l = 3%nat).
  { vm_compute in Htr. injection Htr as <-. reflexivity. }
  destruct l as [|w0 [|w1 [|w2 [|]]]]; try discriminate Hl.
  exists w0, w1, w2. split; [reflexivity|].
  split; [apply (Hmono 0%nat) | apply (Hmono 1%nat)]; reflexivity.
Defined.
Lemma pool_state_always_initialized_witness :
  let i := IInitialize demo_one_mint_init [1; 2; 8; 0; 9] [1] in
  map_Forall (fun _ c => state c = AmmState_Initialized) (configs demo_one_mint_world)
  /\ map_Forall (fun _ c => state c = AmmState_Initialized)
       (configs (step demo_pda demo_ata i demo_one_mint_world)).
Proof.
  intros i.
  assert (H : map_Forall (fun _ c => state c = AmmState_Initialized) (configs demo_one_mint_world))
    by apply map_Forall_empty.
  split; [exact H | exact (pool_state_always_initialized demo_pda demo_ata i _ H)].
Defined.

Lemma pool_signer_seeds_match_witness :
  let accs := [1; 2; 8; 0; 9] in
  let r := initialize_ix demo_pda demo_one_mint_init accs [1] demo_one_mint_world in
  initialize_try_from demo_one_mint_init accs
    = Ok (mkInitializeAccounts 1 2 8, read_initialize_data (demo_one_mint_init ++ repeat 0 32))
  /\ Forall is_byte demo_one_mint_init /\ r = (fst r, Ok tt)
  /\ demo_pda (config_seeds (initialized_config (read_initialize_data (demo_one_mint_init ++ repeat 0 32)))) = 8.
Proof.
  intros accs r.
  assert (H1 : initialize_try_from demo_one_mint_init accs
    = Ok (mkInitializeAccounts 1 2 8, read_initialize_data (demo_one_mint_init ++ repeat 0 32)))
    by reflexivity.
  assert (H2 : Forall is_byte demo_one_mint_init) by (apply bytes_of_forallb; vm_compute; reflexivity).
  assert (H3 : r = (fst r, Ok tt)) by (vm_compute; reflexivity).
  split; [exact H1|]. split; [exact H2|]. split; [exact H3|].
  apply (pool_signer_seeds_match demo_pda _ _ [1] demo_one_mint_world (fst r) _ _ H1 H2 H3).
  reflexivity.
Defined.


Lemma initialize_authority_recorded_witness :
  let accs := [1; 2; 8; 0; 9] in
  let r := initialize_ix demo_pda demo_one_mint_init accs [1] demo_one_mint_world in
  initialize_try_from demo_one_mint_init accs
    = Ok (mkInitializeAccounts 1 2 8, read_initialize_data (demo_one_mint_init ++ repeat 0 32))
  /\ Forall is_byte demo_one_mint_init /\ r = (fst r, Ok tt)
  /\ exists c, configs (fst r) !! 8 = Some c /\ has_authority c = None.
Proof.
  intros accs r.
  assert (H1 : initialize_try_from demo_one_mint_init accs
    = Ok (mkInitializeAccounts 1 2 8, read_initialize_data (demo_one_mint_init ++ repeat 0 32)))
    by reflexivity.
  assert (H2 : Forall is_byte demo_one_mint_init) by (apply bytes_of_forallb; vm_compute; reflexivity).
  assert (H3 : r = (fst r, Ok tt)) by (vm_compute; reflexivity).
  split; [exact H1|]. split; [exact H2|]. split; [exact H3|].
  destruct (initialize_authority_recorded demo_pda _ _ [1] demo_one_mint_world (fst r) _ _ H1 H2 H3)
    as (c & Hc & H76 & _).
  exists c. split; [exact Hc | apply H76; reflexivity].
Defined.

Lemma has_authority_none_iff_zero_witness :
  let c := mkConfig 1 7 (repeat 0 31 ++ [1]) 10 11 30 255 in
  length (authority c) = 32%nat /\ Forall is_byte (authority c)
  /\ has_authority c = Some (repeat 0 31 ++ [1]).
Proof.
  intros c.
  assert (H1 : length (authority c) = 32%nat) by reflexivity.
  assert (H2 : Forall is_byte (authority c)) by (apply bytes_of_forallb; vm_compute; reflexivity).
  split; [exact H1|]. split; [exact H2|].
  apply (proj2 (has_authority_none_iff_zero c H1 H2)). vm_compute. discriminate.
Defined.

Lemma deposit_effect_witness :
  let w := demo_world 100 10 11 30 1000 2000 500 in
  let data := u64_le 50 ++ u64_le 1000 ++ u64_le 1000 ++ u64_le 200 in
  let accs := demo_pool_accounts 10 11 in
  let r := deposit_ix demo_pda demo_ata data accs [1] w in
  deposit_try_from data accs
    = Ok (mkPoolAccounts 1 2 1008 1108 5 6 7 8 9, mkDepositInstructionData 50 1000 1000 200)
  /\ r = (fst r, Ok tt) /\ is_signer 1 [1] = true.
Proof.
  intros w data accs r.
  assert (H1 : deposit_try_from data accs
    = Ok (mkPoolAccounts 1 2 1008 1108 5 6 7 8 9, mkDepositInstructionData 50 1000 1000 200))
    by (vm_compute; reflexivity).
  assert (H2 : r = (fst r, Ok tt)) by (vm_compute; reflexivity).
  split; [exact H1|]. split; [exact H2|].
  exact (proj1 (proj2 (deposit_effect demo_pda demo_ata data accs [1] w (fst r) _ _ H1 H2))).
Defined.

Lemma withdraw_effect_witness :
  let w := demo_world 100 10 11 30 1000 2000 500 in
  let data := u64_le 50 ++ u64_le 1 ++ u64_le 1 ++ u64_le 200 in
  let accs := demo_pool_accounts 10 11 in
  let r := withdraw_ix demo_pda demo_ata data accs [1] w in
  withdraw_try_from data accs
    = Ok (mkPoolAccounts 1 2 1008 1108 5 6 7 8 9, mkWithdrawInstructionData 50 1 1 200)
  /\ r = (fst r, Ok tt) /\ is_signer 1 [1] = true.
Proof.
  intros w data accs r.
  assert (H1 : withdraw_try_from data accs
    = Ok (mkPoolAccounts 1 2 1008 1108 5 6 7 8 9, mkWithdrawInstructionData 50 1 1 200))
    by (vm_compute; reflexivity).
  assert (H2 : r = (fst r, Ok tt)) by (vm_compute; reflexivity).
  split; [exact H1|]. split; [exact H2|].
  exact (proj1 (proj2 (withdraw_effect demo_pda demo_ata data accs [1] w (fst r) _ _ H1 H2))).
Defined.

Lemma swap_effect_witness :
  let w := demo_world 100 10 11 30 1000 2000 500 in
  let data := [1] ++ u64_le 100 ++ u64_le 1 ++ u64_le 200 in
  let accs := demo_swap_accounts 10 11 in
  let r := swap_ix demo_pda demo_ata data accs [1] w in
  swap_try_from data accs
    = Ok (mkSwapAccounts 1 5 6 1008 1108 8 9, mkSwapInstructionData 1 100 1 200)
  /\ r = (fst r, Ok tt) /\ is_signer 1 [1] = true.
Proof.
  intros w data accs r.
  assert (H1 : swap_try_from data accs
    = Ok (mkSwapAccounts 1 5 6 1008 1108 8 9, mkSwapInstructionData 1 100 1 200))
    by (vm_compute; reflexivity).
  assert (H2 : r = (fst r, Ok tt)) by (vm_compute; reflexivity).
  split; [exact H1|]. split; [exact H2|].
  exact (proj1 (proj2 (swap_effect demo_pda demo_ata data accs [1] w (fst r) _ _ H1 H2))).
Defined.

Lemma payload_decoders_roundtrip_witness :
  0 <= 500 <= u64_max /\ 0 <= 1000 <= u64_max /\ 0 <= 2000 <= u64_max
  /\ - 2 ^ 63 <= -5 < 2 ^ 63 /\ 0 <= 1 < 256
  /\ deposit_data_try_from (u64_le 500 ++ u64_le 1000 ++ u64_le 2000 ++ u64_le (-5))
     = Ok (mkDepositInstructionData 500 1000 2000 (-5)).
Proof.
  assert (H1 : 0 <= 500 <= u64_max) by (unfold u64_max; lia).
  assert (H2 : 0 <= 1000 <= u64_max) by (unfold u64_max; lia).
  assert (H3 : 0 <= 2000 <= u64_max) by (unfold u64_max; lia).
  assert (H4 : - 2 ^ 63 <= -5 < 2 ^ 63) by lia.
  assert (H5 : 0 <= 1 < 256) by lia.
  repeat (split; [assumption|]).
  exact (proj1 (payload_decoders_roundtrip 1 500 1000 2000 (-5) H1 H2 H3 H4 H5)).
Defined.
